(** * Crime Analytics & Prediction System: the prediction pipeline of [app.py]

    A shallow embedding of the Streamlit script [src/app.py]: the three
    cached artifact loaders, the per-crime-type scoring loop (row
    construction, defaults merge, label encoding, column alignment,
    inference), the top-5 ranking, the risk classification and the
    priority-ordered alert.

    Conventions.
    - A score is a finite binary64 number; every such number is a rational
      and [<], [>] on finite floats agree with the order of the rationals,
      so scores are values of [Q].  NaN is outside this model.
    - A Python dict keyed by strings is a [gmap string _].
    - Streamlit output is a log of [ui_event]s; [st.stop()] and Python
      exceptions are the [Raise] outcome of the script monad [M].
    - A file on disk holds a pickle or bytes that do not unpickle.
    - Labels are ASCII strings: a character is a byte, and the cased
      characters are the letters. *)

From stdpp Require Import gmap strings list fin_maps sorting pretty.
From Stdlib Require Import QArith Ascii.

Open Scope string_scope.
Open Scope list_scope.

(** ** Values, exceptions and results *)

(** The scalars that occur in a feature row: labels, integer codes and
    years, floating point defaults, and Python's [None]. *)
Inductive value :=
| VNone
| VStr (s : string)
| VInt (n : Z)
| VFloat (q : Q).

(** The exceptions the script can raise.  None of them is caught in
    [app.py]; Streamlit reports an uncaught exception on the page and ends
    the script run. *)
Inductive exn :=
| StopException                      (* st.stop() *)
| KeyError (missing : list string)   (* dict lookup, DataFrame column selection *)
| ValueError (unseen : value)        (* LabelEncoder.transform, unseen label *)
| TypeError                          (* a pickle of the wrong kind is used *)
| FileNotFoundError (path : string)  (* joblib.load on a path with no file *)
| UnpicklingError (path : string)    (* joblib.load on a file that does not unpickle *)
| PredictError (msg : string).       (* raised inside model.predict *)

Inductive res (A : Type) :=
| Ok (a : A)
| Raise (e : exn).
Arguments Ok {A} a.
Arguments Raise {A} e.

Definition is_Ok {A} (r : res A) : bool :=
  match r with Ok _ => true | Raise _ => false end.

#[global] Instance res_ret : MRet res := λ A a, Ok a.
#[global] Instance res_bind : MBind res := λ A B f r,
  match r with Ok a => f a | Raise e => Raise e end.

(** ** Risk classification (the [if score > 150 / elif score > 80 / else]
    of the top-5 loop) *)

Inductive RiskLabel := High | Moderate | Low.

#[global] Instance RiskLabel_eq_dec : EqDecision RiskLabel.
Proof. solve_decision. Defined.

(** One pass through the branch: the label and the two detection flags
    after it. *)
Definition risk_branch (score : Q) (high_risk_detected moderate_risk_detected : bool)
  : RiskLabel * bool * bool :=
  if Qlt_le_dec 150 score then (High, true, moderate_risk_detected)
  else if Qlt_le_dec 80 score then (Moderate, high_risk_detected, true)
  else (Low, high_risk_detected, moderate_risk_detected).

Definition classify (score : Q) : RiskLabel :=
  (risk_branch score false false).1.1.

(** ** Ranking ([sorted(results, key=lambda x: x[1], reverse=True)[:5]]) *)

(** A prediction result: the crime type and its predicted score. *)
Definition result : Type := string * Q.

(** [key=lambda x: x[1]] *)
Definition key (x : result) : Q := x.2.

#[global] Instance Qeq_decision (x y : Q) : Decision (x == y)%Q := Qeq_dec x y.

(** Python's [sorted] is a stable sort that compares keys with [<]; with
    [reverse=True] it yields the keys in descending order and still keeps
    entries with equal keys in their input order.  On a total order there
    is exactly one list with these properties ([stable_sort_unique]
    below); here it is computed by insertion.  [insert_desc x l] puts [x],
    which precedes every entry of [l] in the input, in front of the first
    entry whose key is not greater than its own. *)
Fixpoint insert_desc (x : result) (l : list result) : list result :=
  match l with
  | [] => [x]
  | y :: l' =>
      if Qlt_le_dec (key x) (key y) then y :: insert_desc x l'
      else x :: y :: l'
  end.

Definition sorted_desc (results : list result) : list result :=
  foldr insert_desc [] results.

(** The order of the sorted list: an entry is never followed by one with a
    greater key. *)
Definition desc (a b : result) : Prop := (key b <= key a)%Q.

Definition rank (results : list result) : list result :=
  take 5 (sorted_desc results).

(** Entries whose score equals [v]. *)
Definition scoring (v : Q) (l : list result) : list result :=
  filter (λ e, (key e == v)%Q) l.

(** ** Alert tiers *)

Inductive AlertTier := AlertHigh | AlertModerate | AlertStable.

#[global] Instance AlertTier_eq_dec : EqDecision AlertTier.
Proof. solve_decision. Defined.

Definition HIGH_ALERT : string :=
  "🚨 Breaking Alert: High-risk crime detected. Immediate attention recommended.".
Definition MODERATE_ALERT : string :=
  "🟠 Alert: Moderate-risk crime detected. Recommended actions include increased situational awareness, targeted patrols, and enhanced monitoring.".
Definition STABLE_NOTICE : string :=
  "🟢 Situation Stable: No moderate or high-risk crime detected.".

(** ** Artifacts *)

(** The dtype of the array [classes_]: Python objects (an encoder fitted
    on a pandas column of strings) or numpy's fixed-width strings (an
    encoder fitted on a list or an array of strings).  Casting a float to
    a string dtype writes the float out; that text is numpy's and is kept
    as a function. *)
Inductive dtype :=
| dtype_object
| dtype_str (float_text : Q → string).

(** A [sklearn.preprocessing.LabelEncoder] as it is unpickled: its
    vocabulary and the dtype of the array that holds it.  ([fit] leaves
    the vocabulary sorted and without repetition; an unpickled encoder is
    not known to be so, and nothing here relies on it.) *)
Record LabelEncoder := {
  classes_ : list string;
  classes_dtype : dtype;
}.

(** The width of a fixed-width string array holding [l]: the length of its
    longest string, and at least 1 (numpy counts characters; the labels
    are ASCII, so these are the bytes). *)
Definition width (l : list string) : nat :=
  max_list (String.length <$> l) `max` 1.

(** The first [n] characters of [s]. *)
Fixpoint take_str (n : nat) (s : string) : string :=
  match n, s with
  | S n', String c s' => String c (take_str n' s')
  | _, _ => ""
  end.

(** The text of a value cast to a string dtype. *)
Definition np_str (float_text : Q → string) (v : value) : string :=
  match v with
  | VNone => "None"
  | VStr s => s
  | VInt n => pretty n
  | VFloat q => float_text q
  end.

(** The cast of [transform]'s argument to [classes_.dtype]: nothing for
    objects; for fixed-width strings, the text of the value, cut to the
    width of the vocabulary. *)
Definition cast_to_classes_dtype (enc : LabelEncoder) (y : value) : value :=
  match classes_dtype enc with
  | dtype_object => y
  | dtype_str float_text =>
      VStr (take_str (width (classes_ enc)) (np_str float_text y))
  end.

(** The lookup table of [transform],
    [{val: i for i, val in enumerate(classes_)}]: a label that stands at
    several positions keeps the last of them. *)
Definition table (classes : list string) : gmap string nat :=
  foldl (λ t entry, <[entry.2 := entry.1]> t) ∅ (imap pair classes).

(** [LabelEncoder.transform] on one label: the label is cast to the dtype
    of [classes_] and looked up in the table; the result is the position
    of the cast label in [classes_], or [ValueError] ("y contains
    previously unseen labels") on the cast label when it is not in the
    vocabulary. *)
Definition transform (enc : LabelEncoder) (y : value) : res Z :=
  match cast_to_classes_dtype enc y with
  | VStr s =>
      match table (classes_ enc) !! s with
      | Some i => Ok (Z.of_nat i)
      | None => Raise (ValueError (VStr s))
      end
  | unseen => Raise (ValueError unseen)
  end.

(** The trained LightGBM model: the ordered feature names it was fitted
    on, and its scoring function on one aligned row. *)
Record LGBMModel := {
  feature_name_ : list string;
  predict : list value → res Q;
}.

(** What [joblib.load] can return. *)
Inductive pickle :=
| PModel (m : LGBMModel)
| PEncoders (d : gmap string LabelEncoder)
| PDefaults (d : gmap string value).

(** [d[k]] on a dict *)
Definition dict_get {A} (d : gmap string A) (k : string) : res A :=
  match d !! k with
  | Some v => Ok v
  | None => Raise (KeyError [k])
  end.

(** [encoders[k]] *)
Definition getitem (encoders : pickle) (k : string) : res LabelEncoder :=
  match encoders with
  | PEncoders d => dict_get d k
  | _ => Raise TypeError
  end.

(** [DEFAULTS.items()] *)
Definition items (DEFAULTS : pickle) : res (gmap string value) :=
  match DEFAULTS with
  | PDefaults d => Ok d
  | _ => Raise TypeError
  end.

(** [model.feature_name_] *)
Definition get_feature_name_ (model : pickle) : res (list string) :=
  match model with
  | PModel m => Ok (feature_name_ m)
  | _ => Raise TypeError
  end.

(** [model.predict(input_df)[0]] *)
Definition call_predict (model : pickle) (row : list value) : res Q :=
  match model with
  | PModel m => predict m row
  | _ => Raise TypeError
  end.

(** ** The scoring of one candidate crime type *)

(** The columns that are set from the UI.  A one-row [DataFrame] is the
    map from its column names to the values of its row. *)
Definition UI_FIELDS : gset string := {[ "state"; "category"; "type"; "year" ]}.

(** [pd.DataFrame({"state": [state], "category": [category],
    "type": [crime_type], "year": [year]})] *)
Definition base_input (state category crime_type : value) (year : Z)
  : gmap string value :=
  {[ "state" := state; "category" := category;
     "type" := crime_type; "year" := VInt year ]}.

(** The base input followed by
    [for col, val in DEFAULTS.items(): input_df[col] = val]. *)
Definition build (state category crime_type : value) (year : Z)
    (defaults : gmap string value) : gmap string value :=
  map_fold (λ col val input_df, <[col := val]> input_df)
    (base_input state category crime_type year) defaults.

(** [encoders[feature].transform(label)] *)
Definition encode (encoders : pickle) (feature : string) (label : value) : res Z :=
  enc ← getitem encoders feature;
  transform enc label.

(** [input_df[col] = encoders[col].transform(input_df[col])] *)
Definition encode_column (encoders : pickle) (col : string)
    (input_df : gmap string value) : res (gmap string value) :=
  enc ← getitem encoders col;
  y ← dict_get input_df col;
  code ← transform enc y;
  mret (<[col := VInt code]> input_df).

(** [input_df[names]]: the values of the listed columns, in the listed
    order; pandas raises [KeyError] naming the listed columns that the
    frame does not have. *)
Definition align (input_df : gmap string value) (names : list string)
  : res (list value) :=
  match mapM (λ n, input_df !! n) names with
  | Some vs => Ok vs
  | None => Raise (KeyError (filter (λ n, n ∉ dom input_df) names))
  end.

(** The body of [for crime_type in crime_types]. *)
Definition score_candidate (model encoders DEFAULTS : pickle)
    (state category : value) (year : Z) (crime_type : string) : res result :=
  defaults ← items DEFAULTS;
  let input_df := build state category (VStr crime_type) year defaults in
  input_df ← encode_column encoders "state" input_df;
  input_df ← encode_column encoders "category" input_df;
  input_df ← encode_column encoders "type" input_df;
  names ← get_feature_name_ model;
  input_df ← align input_df names;
  pred ← call_predict model input_df;
  mret (crime_type, pred).

(** The loop, with [results] as its accumulator. *)
Fixpoint score_all (model encoders DEFAULTS : pickle)
    (state category : value) (year : Z)
    (crime_types : list string) (results : list result) : res (list result) :=
  match crime_types with
  | [] => Ok results
  | crime_type :: crime_types' =>
      r ← score_candidate model encoders DEFAULTS state category year crime_type;
      score_all model encoders DEFAULTS state category year crime_types'
        (results ++ [r])
  end.

(** ** The script monad: Streamlit output, the resource cache, the disk *)

Inductive ui_event :=
| Header (s : string)
| Subheader (s : string)
| Markdown (s : string)
| ErrorBox (s : string)
| WarningBox (s : string)
| SuccessBox (s : string)
| Selectbox (label : string) (options : list string)
| Slider (label : string) (lo hi dflt : Z)
| Button (label : string)
(* [st.markdown(f"**{i}. {name}** — {risk}")]: the number, the name as it is
   printed and the risk label *)
| RankLine (i : nat) (name : string) (risk : RiskLabel).

(** What a file on disk is to [joblib.load]: a pickle, or bytes that do
    not unpickle. *)
Inductive file :=
| Pickled (o : pickle)
| Unreadable.

Record world := {
  files : gmap string file;     (* the files on disk, by path *)
  cache : gmap string pickle;   (* st.cache_resource, by function name *)
  loads : list (string * bool); (* the calls of joblib.load so far: the path,
                                   and whether the call returned *)
  ui : list ui_event;           (* what the script has put on the page *)
}.

Definition M (A : Type) : Type := world → res A * world.

#[global] Instance M_ret : MRet M := λ A a w, (Ok a, w).
#[global] Instance M_bind : MBind M := λ A B f m w,
  match m w with
  | (Ok a, w') => f a w'
  | (Raise e, w') => (Raise e, w')
  end.

(** A pure step that may raise. *)
Definition lift {A} (r : res A) : M A := λ w, (r, w).

Definition emit (e : ui_event) : M () := λ w,
  (Ok (), {| files := files w; cache := cache w; loads := loads w;
             ui := ui w ++ [e] |}).

(** [st.stop()] *)
Definition st_stop {A} : M A := λ w, (Raise StopException, w).

(** [os.path.exists(path)] *)
Definition os_path_exists (path : string) : M bool := λ w,
  (Ok (bool_decide (is_Some (files w !! path))), w).

(** [joblib.load(path)] *)
Definition joblib_load (path : string) : M pickle := λ w,
  let logged returned :=
    {| files := files w; cache := cache w;
       loads := loads w ++ [(path, returned)]; ui := ui w |} in
  match files w !! path with
  | Some (Pickled o) => (Ok o, logged true)
  | Some Unreadable => (Raise (UnpicklingError path), logged false)
  | None => (Raise (FileNotFoundError path), logged false)
  end.

(** [@st.cache_resource] on a function without arguments: the body runs
    only when the cache has no entry for the function, and its return
    value is stored; a body that raises stores nothing. *)
Definition cache_resource (fname : string) (body : M pickle) : M pickle := λ w,
  match cache w !! fname with
  | Some o => (Ok o, w)
  | None =>
      match body w with
      | (Ok o, w') =>
          (Ok o, {| files := files w'; cache := <[fname := o]> (cache w');
                    loads := loads w'; ui := ui w' |})
      | (Raise e, w') => (Raise e, w')
      end
  end.

(** [os.path.join(dir, name)] for a relative [name] *)
Fixpoint ends_with_slash (dir : string) : bool :=
  match dir with
  | EmptyString => true
  | String c EmptyString => bool_decide (c = "/"%char)
  | String _ dir' => ends_with_slash dir'
  end.

Definition os_path_join (dir name : string) : string :=
  if ends_with_slash dir then dir +:+ name else dir +:+ "/" +:+ name.

(** What the user does on the prediction page: the entry picked in each
    select box, the slider position, and whether the button is pressed. *)
Record inputs := {
  state_choice : nat;
  category_choice : nat;
  year_choice : Z;
  predict_clicked : bool;
}.

(** [st.selectbox(label, options)]: the option the user picked, [None]
    when there is nothing to pick. *)
Definition st_selectbox (label : string) (options : list string) (choice : nat)
  : M value :=
  _ ← emit (Selectbox label options);
  mret (from_option VStr VNone (options !! choice)).

(** ** The printed name of a crime type

    [crime.replace('_', ' ').title()]: in [str.title] a character is put in
    upper case when the character before it is not cased, and in lower
    case when it is.  The labels are ASCII, where the cased characters are
    the letters. *)

Definition is_upper (c : ascii) : bool :=
  Nat.leb 65 (nat_of_ascii c) && Nat.leb (nat_of_ascii c) 90.

Definition is_lower (c : ascii) : bool :=
  Nat.leb 97 (nat_of_ascii c) && Nat.leb (nat_of_ascii c) 122.

Definition to_upper (c : ascii) : ascii :=
  if is_lower c then ascii_of_nat (nat_of_ascii c - 32) else c.

Definition to_lower (c : ascii) : ascii :=
  if is_upper c then ascii_of_nat (nat_of_ascii c + 32) else c.

(** [s.replace(old, new)] for single characters *)
Fixpoint replace_char (old new : ascii) (s : string) : string :=
  match s with
  | EmptyString => EmptyString
  | String c s' =>
      String (if bool_decide (c = old) then new else c) (replace_char old new s')
  end.

Fixpoint title_from (previous_is_cased : bool) (s : string) : string :=
  match s with
  | EmptyString => EmptyString
  | String c s' =>
      String (if previous_is_cased then to_lower c else to_upper c)
        (title_from (is_upper c || is_lower c) s')
  end.

(** [s.title()] *)
Definition title (s : string) : string := title_from false s.

Definition display_name (crime : string) : string :=
  title (replace_char "_"%char " "%char crime).

(** ** The loaders and the prediction page *)

Inductive kind := Model | EncoderBank | Defaults.

#[global] Instance kind_eq_dec : EqDecision kind.
Proof. solve_decision. Defined.

Section app.
(** [BASE_DIR = os.path.dirname(os.path.abspath(__file__))] *)
Variable BASE_DIR : string.

Definition MODEL_PATH : string := os_path_join BASE_DIR "crime_model.pkl".
Definition ENCODER_PATH : string := os_path_join BASE_DIR "label_encoders.pkl".
Definition DEFAULT_PATH : string := os_path_join BASE_DIR "defaults.pkl".

Definition load_model : M pickle :=
  cache_resource "load_model" (
    found ← os_path_exists MODEL_PATH;
    _ ← (if negb found then
           _ ← emit (ErrorBox ("⚠️ Model file not found at:
" +:+ MODEL_PATH));
           st_stop
         else mret ());
    joblib_load MODEL_PATH).

Definition load_encoders : M pickle :=
  cache_resource "load_encoders" (
    found ← os_path_exists ENCODER_PATH;
    _ ← (if negb found then
           _ ← emit (ErrorBox "⚠️ Label encoders file not found.");
           st_stop
         else mret ());
    joblib_load ENCODER_PATH).

Definition load_defaults : M pickle :=
  cache_resource "load_defaults" (
    found ← os_path_exists DEFAULT_PATH;
    _ ← (if negb found then
           _ ← emit (ErrorBox "⚠️ defaults.pkl not found.");
           st_stop
         else mret ());
    joblib_load DEFAULT_PATH).

(** The loader, its file and its cache entry for each kind of artifact. *)
Definition load (k : kind) : M pickle :=
  match k with
  | Model => load_model
  | EncoderBank => load_encoders
  | Defaults => load_defaults
  end.

Definition path_of (k : kind) : string :=
  match k with
  | Model => MODEL_PATH
  | EncoderBank => ENCODER_PATH
  | Defaults => DEFAULT_PATH
  end.

Definition fname_of (k : kind) : string :=
  match k with
  | Model => "load_model"
  | EncoderBank => "load_encoders"
  | Defaults => "load_defaults"
  end.

(** [for i, (crime, score) in enumerate(top5, start=i): ...], with the two
    detection flags as loop state. *)
Fixpoint show_top5 (i : nat) (top5 : list result)
    (high_risk_detected moderate_risk_detected : bool) : M (bool * bool) :=
  match top5 with
  | [] => mret (high_risk_detected, moderate_risk_detected)
  | (crime, score) :: top5' =>
      let '(risk, high_risk_detected, moderate_risk_detected) :=
        risk_branch score high_risk_detected moderate_risk_detected in
      _ ← emit (RankLine i (display_name crime) risk);
      show_top5 (S i) top5' high_risk_detected moderate_risk_detected
  end.

(** The priority-based alert message. *)
Definition show_alert (high_risk_detected moderate_risk_detected : bool) : M () :=
  if high_risk_detected then emit (WarningBox HIGH_ALERT)
  else if moderate_risk_detected then emit (WarningBox MODERATE_ALERT)
  else emit (SuccessBox STABLE_NOTICE).

(** Everything from [top5 = sorted(...)[:5]] to the end of the page. *)
Definition display (results : list result) : M () :=
  let top5 := rank results in
  _ ← emit (Subheader "🚨 Top 5 Predicted Crime Types");
  '(high_risk_detected, moderate_risk_detected) ← show_top5 1 top5 false false;
  _ ← show_alert high_risk_detected moderate_risk_detected;
  _ ← emit (Markdown "---");
  _ ← emit (Subheader "📌 Recommended Actions");
  emit (Markdown "
        - 🚓 Conduct random spot checks in areas with past incidents
        - 🏘️ Strengthen community-based prevention programmes
        - 🧑‍🤝‍🧑 Run awareness campaigns on personal safety and conflict de-escalation 
        - 📊 Continuously monitor crime trends via the dashboard  
        ").

(** The body of [if st.button("Predict Crime Trends", ...)]. *)
Definition predict_trends (model encoders DEFAULTS : pickle)
    (state category : value) (year : Z) : M () :=
  enc ← lift (getitem encoders "type");
  let crime_types := classes_ enc in
  results ← lift (score_all model encoders DEFAULTS state category year
                    crime_types []);
  display results.

(** The prediction page, from [st.header] on. *)
Definition prediction_page (inp : inputs) : M () :=
  _ ← emit (Header "🔮 Crime Prediction");
  model ← load_model;
  encoders ← load_encoders;
  DEFAULTS ← load_defaults;
  _ ← emit (Markdown "Select a **state**, **crime category**, and **target year**. The system will display the **top 5 predicted crime types**.");
  enc ← lift (getitem encoders "state");
  state ← st_selectbox "State" (classes_ enc) (state_choice inp);
  enc ← lift (getitem encoders "category");
  category ← st_selectbox "Crime Category" (classes_ enc) (category_choice inp);
  _ ← emit (Slider "Target Year" 2026 2029 2027);
  let year := year_choice inp in
  _ ← emit (Button "Predict Crime Trends");
  if predict_clicked inp then
    predict_trends model encoders DEFAULTS state category year
  else mret ().
End app.

(** ** The vocabulary of the properties *)

(** The alert a run shows, read off the page. *)
Definition alert_of_event (e : ui_event) : option AlertTier :=
  match e with
  | WarningBox s =>
      if decide (s = HIGH_ALERT) then Some AlertHigh
      else if decide (s = MODERATE_ALERT) then Some AlertModerate
      else None
  | SuccessBox s =>
      if decide (s = STABLE_NOTICE) then Some AlertStable else None
  | _ => None
  end.

Definition alerts (page : list ui_event) : list AlertTier :=
  omap alert_of_event page.

(** The ranking lines on the page. *)
Definition is_ranking_event (e : ui_event) : bool :=
  match e with
  | RankLine _ _ _ => true
  | Subheader s => bool_decide (s = "🚨 Top 5 Predicted Crime Types")
  | _ => false
  end.

(** The tier by priority over the labels of a list of results: High if any
    entry is High, else Moderate if any entry is Moderate, else Stable. *)
Definition priority_tier (l : list result) : AlertTier :=
  if decide (Exists (λ e, classify (key e) = High) l) then AlertHigh
  else if decide (Exists (λ e, classify (key e) = Moderate) l) then AlertModerate
  else AlertStable.

(** The tier the code selects from its two flags. *)
Definition tier_of_flags (high_risk_detected moderate_risk_detected : bool)
  : AlertTier :=
  if high_risk_detected then AlertHigh
  else if moderate_risk_detected then AlertModerate
  else AlertStable.

(** The flags after the loop of [show_top5] has gone through [l]. *)
Definition detect_from (high_risk_detected moderate_risk_detected : bool)
    (l : list result) : bool * bool :=
  foldl (λ '(h, m) '(_, score),
           let '(_, h', m') := risk_branch score h m in (h', m'))
    (high_risk_detected, moderate_risk_detected) l.

Definition detect (l : list result) : bool * bool := detect_from false false l.

(** The tier the alert code would select had its loop gone through [l]. *)
Definition alert_tier (l : list result) : AlertTier :=
  tier_of_flags (detect l).1 (detect l).2.

(** The lines the loop of [show_top5] puts on the page. *)
Fixpoint rank_lines (i : nat) (top5 : list result) : list ui_event :=
  match top5 with
  | [] => []
  | (crime, score) :: top5' =>
      RankLine i (display_name crime) (classify score) :: rank_lines (S i) top5'
  end.

(** The box that announces a tier. *)
Definition alert_event (t : AlertTier) : ui_event :=
  match t with
  | AlertHigh => WarningBox HIGH_ALERT
  | AlertModerate => WarningBox MODERATE_ALERT
  | AlertStable => SuccessBox STABLE_NOTICE
  end.

(** The world with [page] added to its output. *)
Definition add_ui (page : list ui_event) (w : world) : world :=
  {| files := files w; cache := cache w; loads := loads w; ui := ui w ++ page |}.

(** The life of one server process: loaders are called, pages are run,
    and between script runs the files on disk may change and the page is
    cleared.  The cache is never touched from outside. *)
Inductive step (BASE_DIR : string) : world → world → Prop :=
| step_load k w : step BASE_DIR w (load BASE_DIR k w).2
| step_page inp w : step BASE_DIR w (prediction_page BASE_DIR inp w).2
| step_env fs page w :
    step BASE_DIR w {| files := fs; cache := cache w; loads := loads w; ui := page |}.

Definition process_start (fs : gmap string file) : world :=
  {| files := fs; cache := ∅; loads := []; ui := [] |}.

(** ** Reasoning about script runs *)

(** The world after [emit e]. *)
Definition shown (e : ui_event) (w : world) : world :=
  {| files := files w; cache := cache w; loads := loads w; ui := ui w ++ [e] |}.

(** The world after a successful [joblib.load] whose result was cached. *)
Definition loaded (fname path : string) (o : pickle) (w : world) : world :=
  {| files := files w; cache := <[fname := o]> (cache w);
     loads := loads w ++ [(path, true)]; ui := ui w |}.

(** The world after a call of [joblib.load] that raised. *)
Definition tried (path : string) (w : world) : world :=
  {| files := files w; cache := cache w;
     loads := loads w ++ [(path, false)]; ui := ui w |}.

(** The error message of each loader. *)
Definition missing_message (BASE_DIR : string) (k : kind) : string :=
  match k with
  | Model => "⚠️ Model file not found at:
" +:+ MODEL_PATH BASE_DIR
  | EncoderBank => "⚠️ Label encoders file not found."
  | Defaults => "⚠️ defaults.pkl not found."
  end.

(** [sub] occurs somewhere in [s]. *)
Definition occurs_in (sub s : string) : bool :=
  bool_decide (is_Some (String.index 0 sub s)).

(** What [display] puts on the page, up to the closing list of recommended
    actions. *)
Definition display_page (results : list result) : list ui_event :=
  [Subheader "🚨 Top 5 Predicted Crime Types"]
  ++ rank_lines 1 (rank results)
  ++ [alert_event (alert_tier (rank results))]
  ++ [Markdown "---"; Subheader "📌 Recommended Actions"].

(** A property of the cache and of the log of [joblib.load] calls. *)
Definition holds (I : gmap string pickle → list (string * bool) → Prop)
    (w : world) : Prop :=
  I (cache w) (loads w).

(** A computation keeps [I]. *)
Definition keeps (I : gmap string pickle → list (string * bool) → Prop)
    {A} (m : M A) : Prop :=
  ∀ w, holds I w → holds I (m w).2.

(** The calls of [joblib.load] that returned. *)
Definition returned (log : list (string * bool)) : list string :=
  (filter (λ call, call.2 = true) log).*1.

(** Each path that a call of [joblib.load] returned for belongs to one of
    the three loaders, whose result is in the cache; no path was
    deserialized twice. *)
Definition once (BASE_DIR : string)
    (c : gmap string pickle) (log : list (string * bool)) : Prop :=
  NoDup (returned log) ∧
  ∀ p, p ∈ returned log →
       ∃ k, p = path_of BASE_DIR k ∧ is_Some (c !! fname_of k).

(** ** Data for the examples *)

Definition pop_defaults : gmap string value := {[ "pop" := VInt 100 ]}.

Definition abcd_row : gmap string value :=
  {[ "a" := VInt 1; "b" := VInt 2; "c" := VInt 3; "d" := VInt 99 ]}.

Definition state_encoder : LabelEncoder :=
  {| classes_ := ["Johor"; "Kedah"; "Selangor"];
     classes_dtype := dtype_object |}.

Definition category_encoder : LabelEncoder :=
  {| classes_ := ["assault"; "property"];
     classes_dtype := dtype_object |}.

Definition type_encoder : LabelEncoder :=
  {| classes_ := ["T01"; "T02"; "T03"; "T04"; "T05";
                  "T06"; "T07"; "T08"; "T09"; "T10"];
     classes_dtype := dtype_object |}.

Definition demo_encoders : gmap string LabelEncoder :=
  {[ "state" := state_encoder; "category" := category_encoder;
     "type" := type_encoder ]}.

(** A model over the four UI fields and one default; the score depends on
    the code of the crime type only: 200 for T03, 160 for T05, 90 for T07
    and 10 for the others. *)
Definition demo_predict (row : list value) : res Q :=
  match row with
  | [VInt _; VInt _; VInt t; VInt _; VInt _] =>
      Ok (if decide (t = 2%Z) then 200%Q
          else if decide (t = 4%Z) then 160%Q
          else if decide (t = 6%Z) then 90%Q
          else 10%Q)
  | _ => Raise (PredictError "pandas dtypes must be int, float or bool")
  end.

Definition demo_model : LGBMModel :=
  {| feature_name_ := ["state"; "category"; "type"; "year"; "pop"];
     predict := demo_predict |}.

(** The same model after a retraining that added a feature the defaults
    file does not know. *)
Definition drifted_model : LGBMModel :=
  {| feature_name_ := ["state"; "category"; "type"; "year"; "pop"; "gdp"];
     predict := demo_predict |}.

Definition demo_files : gmap string file :=
  {[ MODEL_PATH "/app" := Pickled (PModel demo_model);
     ENCODER_PATH "/app" := Pickled (PEncoders demo_encoders);
     DEFAULT_PATH "/app" := Pickled (PDefaults pop_defaults) ]}.

Definition demo_inputs : inputs :=
  {| state_choice := 1; category_choice := 0; year_choice := 2027;
     predict_clicked := true |}.

Definition six_high : list result :=
  [("a", 200%Q); ("b", 200%Q); ("c", 200%Q);
   ("d", 200%Q); ("e", 200%Q); ("f", 200%Q)].

(** ** Further vocabulary: valid artifacts, available files, quiet pages *)

(** A value LightGBM accepts in a column: an integer or a float. *)
Definition numeric (v : value) : bool :=
  match v with
  | VInt _ | VFloat _ => true
  | _ => false
  end.

(** The frame of a candidate once its three label columns hold their
    codes: the codes, and under them the defaults laid over the year. *)
Definition encoded_input (state_code category_code type_code year : Z)
    (defaults : gmap string value) : gmap string value :=
  <["type" := VInt type_code]>
    (<["category" := VInt category_code]>
       (<["state" := VInt state_code]>
          (defaults ∪ {[ "year" := VInt year ]}))).

(** The artifact of kind [k] can be had: it is in the cache, or its file
    is on disk and holds a pickle. *)
Definition available (BASE_DIR : string) (k : kind) (w : world) : Prop :=
  is_Some (cache w !! fname_of k) ∨
  ∃ o, files w !! path_of BASE_DIR k = Some (Pickled o).

(** The artifact of kind [k] is missing: it is not in the cache and there
    is no file at its path. *)
Definition missing (BASE_DIR : string) (k : kind) (w : world) : Prop :=
  cache w !! fname_of k = None ∧ files w !! path_of BASE_DIR k = None.

(** The artifact a loader returns when it is available. *)
Definition artifact (BASE_DIR : string) (k : kind) (w : world) : option pickle :=
  match cache w !! fname_of k with
  | Some o => Some o
  | None =>
      match files w !! path_of BASE_DIR k with
      | Some (Pickled o) => Some o
      | _ => None
      end
  end.

(** A piece of page with no ranking line and no alert on it. *)
Definition silent (page : list ui_event) : Prop :=
  alerts page = [] ∧ Forall (λ e, is_ranking_event e = false) page.

(** The rank lines of a page. *)
Definition is_rank_line (e : ui_event) : bool :=
  match e with RankLine _ _ _ => true | _ => false end.

Definition rank_lines_of (page : list ui_event) : list ui_event :=
  filter (λ e, is_rank_line e = true) page.

(** A model that scores every row: 200 for the crime type of code 2, 160
    for code 4, 90 for code 6 and 10 for anything else. *)
Definition lenient_predict (row : list value) : res Q :=
  match row with
  | [_; _; VInt t; _; _] =>
      Ok (if decide (t = 2%Z) then 200%Q
          else if decide (t = 4%Z) then 160%Q
          else if decide (t = 6%Z) then 90%Q
          else 10%Q)
  | _ => Ok 10%Q
  end.

Definition lenient_model : LGBMModel :=
  {| feature_name_ := ["state"; "category"; "type"; "year"; "pop"];
     predict := lenient_predict |}.

Definition three_results : list result :=
  [("theft", 90%Q); ("robbery", 200%Q); ("assault", 10%Q)].

Definition calm_results : list result :=
  [("theft", 80%Q); ("robbery", 12%Q); ("assault", 10%Q)].

(** The order in which the page asks for its artifacts. *)
Definition kind_index (k : kind) : nat :=
  match k with
  | Model => 0
  | EncoderBank => 1
  | Defaults => 2
  end.

(** A computation that only ever adds silent output. *)
Definition quiet {A} (m : M A) : Prop :=
  ∀ w, ∃ page, ui (m w).2 = ui w ++ page ∧ silent page.

(** What a run of the prediction page may put on the page: a ranking and
    its one alert when the button is pressed and the run comes to its end,
    silent output otherwise. *)
Definition page_outcome (clicked : bool) {A} (r : res A)
    (page : list ui_event) : Prop :=
  match r with
  | Raise _ => silent page
  | Ok _ =>
      if clicked then
        ∃ results, alerts page = [priority_tier (rank results)] ∧
                   rank_lines_of page = rank_lines 1 (rank results)
      else silent page
  end.

Definition run_outcome (clicked : bool) {A} (m : M A) : Prop :=
  ∀ w, ∃ page, ui (m w).2 = ui w ++ page ∧ page_outcome clicked (m w).1 page.

Definition model_only_files : gmap string file :=
  {[ MODEL_PATH "/app" := Pickled (PModel demo_model) ]}.

(** Defaults that also name the year. *)
Definition year_defaults : gmap string value :=
  {[ "pop" := VInt 100; "year" := VInt 2020 ]}.

(** An encoder bank without an encoder for the state. *)
Definition stateless_encoders : gmap string LabelEncoder :=
  {[ "category" := category_encoder;
     "type" := {| classes_ := ["T01"; "T02"];
                  classes_dtype := dtype_object |} ]}.

Definition stateless_files : gmap string file :=
  {[ MODEL_PATH "/app" := Pickled (PModel demo_model);
     ENCODER_PATH "/app" := Pickled (PEncoders stateless_encoders);
     DEFAULT_PATH "/app" := Pickled (PDefaults pop_defaults) ]}.

(** A state encoder fitted on an array of strings: its vocabulary is an
    array of strings of width 8. *)
Definition fixed_width_state_encoder : LabelEncoder :=
  {| classes_ := ["Johor"; "Kedah"; "Selangor"];
     classes_dtype := dtype_str (λ _, "nan") |}.

(** An encoder whose vocabulary was set by hand, with a label at two
    positions. *)
Definition repeating_encoder : LabelEncoder :=
  {| classes_ := ["assault"; "theft"; "assault"];
     classes_dtype := dtype_object |}.

(** A disk whose model file does not unpickle. *)
Definition unreadable_model_files : gmap string file :=
  {[ MODEL_PATH "/app" := Unreadable;
     ENCODER_PATH "/app" := Pickled (PEncoders demo_encoders);
     DEFAULT_PATH "/app" := Pickled (PDefaults pop_defaults) ]}.

(** A bank whose state encoder has a vocabulary of fixed-width strings. *)
Definition fixed_width_encoders : gmap string LabelEncoder :=
  {[ "state" := fixed_width_state_encoder; "category" := category_encoder;
     "type" := type_encoder ]}.

(** * Properties *)

(** ** Risk classification *)

Lemma risk_branch_label score h m : (risk_branch score h m).1.1 = classify score.
Proof.
  unfold classify, risk_branch.
  destruct (Qlt_le_dec 150 score); [done|].
  by destruct (Qlt_le_dec 80 score).
Qed.

Lemma classify_High score : classify score = High ↔ (150 < score)%Q.
Proof.
  unfold classify, risk_branch.
  destruct (Qlt_le_dec 150 score) as [H|H]; simpl; [done|].
  destruct (Qlt_le_dec 80 score); simpl;
    (split; [done|intros H'; by apply Qlt_not_le in H']).
Qed.

Lemma classify_Moderate score :
  classify score = Moderate ↔ (80 < score)%Q ∧ (score <= 150)%Q.
Proof.
  unfold classify, risk_branch.
  destruct (Qlt_le_dec 150 score) as [H|H]; simpl.
  - split; [done|]. intros [_ H']. by apply Qlt_not_le in H.
  - destruct (Qlt_le_dec 80 score) as [H'|H']; simpl; [done|].
    split; [done|]. intros [H'' _]. by apply Qlt_not_le in H''.
Qed.

Lemma classify_Low score : classify score = Low ↔ (score <= 80)%Q.
Proof.
  unfold classify, risk_branch.
  destruct (Qlt_le_dec 150 score) as [H|H]; simpl.
  - split; [done|]. intros H'. apply Qlt_not_le in H. destruct H.
    eapply Qle_trans; [exact H'|]. by apply Qle_bool_imp_le.
  - destruct (Qlt_le_dec 80 score) as [H'|H']; simpl; [|done].
    split; [done|]. intros H''. by apply Qlt_not_le in H'.
Qed.

(** C1: a score above 150 is High, a score above 80 and at most 150 is
    Moderate, a score of at most 80 is Low; at the boundaries,
    150.0001 is High, 150.0 is Moderate, 80.0001 is Moderate and 80.0 is
    Low. *)
Theorem classify_thresholds :
  (∀ score : Q,
      ((150 < score)%Q → classify score = High) ∧
      ((80 < score)%Q ∧ (score <= 150)%Q → classify score = Moderate) ∧
      ((score <= 80)%Q → classify score = Low)) ∧
  classify (1500001 # 10000) = High ∧
  classify 150 = Moderate ∧
  classify (800001 # 10000) = Moderate ∧
  classify 80 = Low.
Proof.
  split; [|done].
  intros score. split; [|split].
  - apply classify_High.
  - apply classify_Moderate.
  - apply classify_Low.
Qed.

Lemma classify_thresholds_witness :
  (150 < 200)%Q ∧ classify 200 = High.
Proof.
  split; [reflexivity|].
  apply (proj1 (proj1 classify_thresholds 200)). reflexivity.
Defined.


(** ** Ranking: length, order, stability *)

Lemma insert_desc_perm x l : insert_desc x l ≡ₚ x :: l.
Proof.
  induction l as [|y l IH]; simpl; [done|].
  destruct (Qlt_le_dec (key x) (key y)); [|done].
  rewrite IH. apply Permutation_swap.
Qed.

Lemma sorted_desc_perm l : sorted_desc l ≡ₚ l.
Proof.
  induction l as [|x l IH]; simpl; [done|].
  by rewrite insert_desc_perm, IH.
Qed.

Lemma sorted_desc_length l : length (sorted_desc l) = length l.
Proof. by rewrite sorted_desc_perm. Qed.

#[global] Instance desc_trans : Transitive desc.
Proof. intros a b c Hab Hbc. unfold desc in *. by eapply Qle_trans. Qed.

Lemma insert_desc_sorted x l :
  StronglySorted desc l → StronglySorted desc (insert_desc x l).
Proof.
  induction 1 as [|y l Hl IH Hy]; simpl.
  - repeat constructor.
  - destruct (Qlt_le_dec (key x) (key y)) as [Hlt|Hle].
    + constructor; [done|].
      rewrite insert_desc_perm. constructor; [|done].
      by apply Qlt_le_weak.
    + constructor; [by constructor|].
      constructor; [done|].
      eapply Forall_impl; [exact Hy|].
      intros z Hz. unfold desc in *. by eapply Qle_trans.
Qed.

Lemma sorted_desc_sorted l : StronglySorted desc (sorted_desc l).
Proof.
  induction l as [|x l IH]; simpl; [constructor|].
  by apply insert_desc_sorted.
Qed.

Lemma scoring_cons v x l :
  scoring v (x :: l) = if decide (key x == v)%Q then x :: scoring v l else scoring v l.
Proof. unfold scoring. by rewrite filter_cons. Qed.

Lemma insert_desc_stable v x l : scoring v (insert_desc x l) = scoring v (x :: l).
Proof.
  induction l as [|y l IH]; simpl; [done|].
  destruct (Qlt_le_dec (key x) (key y)) as [Hlt|Hle]; [|done].
  rewrite (scoring_cons v y), IH, !scoring_cons.
  destruct (decide (key x == v)%Q) as [Hx|Hx],
    (decide (key y == v)%Q) as [Hy|Hy]; try done.
  rewrite Hx, Hy in Hlt. by apply Qlt_irrefl in Hlt.
Qed.

Lemma sorted_desc_stable v l : scoring v (sorted_desc l) = scoring v l.
Proof.
  induction l as [|x l IH]; simpl; [done|].
  by rewrite insert_desc_stable, !scoring_cons, IH.
Qed.

(** Sortedness and stability determine the result: whichever stable
    sorting algorithm [sorted] runs, it returns [sorted_desc]. *)
Lemma stable_sort_unique l1 l2 :
  StronglySorted desc l1 → StronglySorted desc l2 →
  (∀ v, scoring v l1 = scoring v l2) → l1 = l2.
Proof.
  intros Hs1. revert l2.
  induction Hs1 as [|x l1 Hs1 IH Hx]; intros l2 Hs2 Hst.
  - destruct l2 as [|y l2]; [done|].
    specialize (Hst (key y)). rewrite scoring_cons in Hst.
    by destruct (decide (key y == key y)%Q) as [|[]].
  - destruct Hs2 as [|y l2 Hs2 Hy].
    { specialize (Hst (key x)). rewrite scoring_cons in Hst.
      by destruct (decide (key x == key x)%Q) as [|[]]. }
    assert (Hin : ∀ (a : result) l l', (∀ v, scoring v l = scoring v l') → a ∈ l → a ∈ l').
    { intros a l l' H Ha. specialize (H (key a)).
      assert (a ∈ scoring (key a) l) as Ha'
        by (unfold scoring; apply list_elem_of_filter; split; [reflexivity|done]).
      rewrite H in Ha'. unfold scoring in Ha'.
      by apply list_elem_of_filter in Ha' as [_ ?]. }
    assert (key x == key y)%Q as Hxy.
    { apply Qle_antisym.
      - assert (x ∈ y :: l2) as Hx' by (apply (Hin _ (x :: l1)); [done|left]).
        apply elem_of_cons in Hx' as [->|Hx']; [apply Qle_refl|].
        rewrite Forall_forall in Hy. by apply Hy.
      - assert (y ∈ x :: l1) as Hy' by (apply (Hin _ (y :: l2)); [done|left]).
        apply elem_of_cons in Hy' as [->|Hy']; [apply Qle_refl|].
        rewrite Forall_forall in Hx. by apply Hx. }
    assert (x = y) as ->.
    { specialize (Hst (key x)). rewrite !scoring_cons in Hst.
      destruct (decide (key x == key x)%Q) as [|[]]; [|done].
      destruct (decide (key y == key x)%Q) as [|[]]; [|by symmetry].
      by injection Hst. }
    f_equal. apply IH; [done|].
    intros v. specialize (Hst v). rewrite !scoring_cons in Hst.
    destruct (decide (key y == v)%Q); [by injection Hst|done].
Qed.

Lemma sorted_desc_unique l l' :
  StronglySorted desc l' → (∀ v, scoring v l' = scoring v l) → l' = sorted_desc l.
Proof.
  intros Hs Hst. apply stable_sort_unique; [done|apply sorted_desc_sorted|].
  intros v. by rewrite Hst, sorted_desc_stable.
Qed.

Lemma rank_length results : length (rank results) = 5 `min` length results.
Proof. unfold rank. by rewrite length_take, sorted_desc_length. Qed.

Lemma rank_sorted results : StronglySorted desc (rank results).
Proof.
  unfold rank. pose proof (sorted_desc_sorted results) as H.
  rewrite <-(take_drop 5 (sorted_desc results)) in H.
  by apply StronglySorted_app_1_l in H.
Qed.

Lemma rank_stable v results : scoring v (rank results) `prefix_of` scoring v results.
Proof.
  exists (scoring v (drop 5 (sorted_desc results))).
  rewrite <-sorted_desc_stable. unfold rank, scoring.
  by rewrite <-filter_app, take_drop.
Qed.

Lemma rank_top results :
  rank results ++ drop 5 (sorted_desc results) ≡ₚ results ∧
  ∀ a b, a ∈ rank results → b ∈ drop 5 (sorted_desc results) → desc a b.
Proof.
  unfold rank. split.
  - rewrite take_drop. apply sorted_desc_perm.
  - intros a b Ha Hb.
    pose proof (sorted_desc_sorted results) as H.
    rewrite <-(take_drop 5 (sorted_desc results)) in H.
    by eapply StronglySorted_app_1_elem_of.
Qed.

(** C2: [rank] returns exactly min(5, |results|) entries, in descending
    order of score; the entries with one and the same score come in the
    order they have in the input (they are the first of them); the entries
    left out are entries of the input that score no higher than any entry
    returned. *)
Theorem rank_top5_sorted_stable (results : list result) :
  length (rank results) = 5 `min` length results ∧
  StronglySorted (λ a b, (b.2 <= a.2)%Q) (rank results) ∧
  (∀ v, filter (λ e, (e.2 == v)%Q) (rank results)
          `prefix_of` filter (λ e, (e.2 == v)%Q) results) ∧
  ∃ rest, rank results ++ rest ≡ₚ results ∧
          ∀ a b, a ∈ rank results → b ∈ rest → (b.2 <= a.2)%Q.
Proof.
  split; [apply rank_length|].
  split; [apply rank_sorted|].
  split; [intros v; apply rank_stable|].
  exists (drop 5 (sorted_desc results)). apply rank_top.
Qed.

(** ** Request builder: the base input and the defaults merge *)

Example rank_example :
  rank [("a", 10%Q); ("b", 20%Q); ("c", 10%Q); ("d", 20%Q);
        ("e", 5%Q); ("f", 20%Q); ("g", 10%Q)]
  = [("b", 20%Q); ("d", 20%Q); ("f", 20%Q); ("a", 10%Q); ("c", 10%Q)].
Proof. reflexivity. Qed.

Lemma build_union state category crime_type year (defaults : gmap string value) :
  build state category crime_type year defaults
  = defaults ∪ base_input state category crime_type year.
Proof.
  unfold build.
  apply (map_fold_weak_ind
           (λ r (m : gmap string value),
              r = m ∪ base_input state category crime_type year)).
  - by rewrite (left_id_L ∅ (∪)).
  - intros col val m r _ ->. by rewrite insert_union_l.
Qed.

Lemma dom_base_input state category crime_type year :
  dom (base_input state category crime_type year) = UI_FIELDS.
Proof. unfold base_input, UI_FIELDS. rewrite !dom_insert_L. set_solver. Qed.

Lemma build_dom state category crime_type year (defaults : gmap string value) :
  dom (build state category crime_type year defaults) = UI_FIELDS ∪ dom defaults.
Proof. rewrite build_union, dom_union_L, dom_base_input. apply (comm_L (∪)). Qed.

Lemma build_lookup_default state category crime_type year
    (defaults : gmap string value) k v :
  defaults !! k = Some v →
  build state category crime_type year defaults !! k = Some v.
Proof. intros H. rewrite build_union. by apply lookup_union_Some_l. Qed.

Lemma build_lookup_ui state category crime_type year
    (defaults : gmap string value) k :
  defaults !! k = None →
  build state category crime_type year defaults !! k
  = base_input state category crime_type year !! k.
Proof. intros H. rewrite build_union. by apply lookup_union_r. Qed.

Example build_example :
  build (VStr "X") (VStr "Y") (VStr "Z") 2027 pop_defaults
  = {[ "state" := VStr "X"; "category" := VStr "Y"; "type" := VStr "Z";
       "year" := VInt 2027; "pop" := VInt 100 ]}.
Proof.
  rewrite build_union. unfold pop_defaults, base_input.
  rewrite <-insert_union_singleton_l.
  apply map_eq. intros k.
  repeat (rewrite (lookup_insert _ _ k) || rewrite (lookup_singleton _ k)).
  repeat case_decide; congruence.
Qed.

(** C3, as the claim states it, fails: a Defaults mapping that names a
    UI-controlled field overrides the value the user supplied. *)
Lemma build_defaults_override :
  ¬ (∀ state category crime_type year (defaults : gmap string value),
       build state category crime_type year defaults !! "state" = Some state).
Proof.
  intros H.
  specialize (H (VStr "X") (VStr "Y") (VStr "Z") 2027%Z {[ "state" := VInt 7 ]}).
  rewrite build_union in H.
  by rewrite (lookup_union_Some_l _ _ _ (VInt 7)) in H.
Qed.

(** C3 (amended): the key set of the row is exactly
    {state, category, type, year} ∪ keys(Defaults); every key of Defaults
    carries its default value; each of the four UI-controlled fields that
    Defaults does not name carries the value the user supplied, so with
    Defaults disjoint from the UI-controlled fields all four do; and
    build("X", "Y", "Z", 2027, {"pop": 100}) is exactly
    {state: "X", category: "Y", type: "Z", year: 2027, pop: 100}. *)
Theorem build_keys_and_values :
  (∀ state category crime_type year (defaults : gmap string value),
      let row := build state category crime_type year defaults in
      dom row = {[ "state"; "category"; "type"; "year" ]} ∪ dom defaults ∧
      (∀ k v, defaults !! k = Some v → row !! k = Some v) ∧
      (defaults !! "state" = None → row !! "state" = Some state) ∧
      (defaults !! "category" = None → row !! "category" = Some category) ∧
      (defaults !! "type" = None → row !! "type" = Some crime_type) ∧
      (defaults !! "year" = None → row !! "year" = Some (VInt year))) ∧
  build (VStr "X") (VStr "Y") (VStr "Z") 2027 {[ "pop" := VInt 100 ]}
  = {[ "state" := VStr "X"; "category" := VStr "Y"; "type" := VStr "Z";
       "year" := VInt 2027; "pop" := VInt 100 ]}.
Proof.
  split; [|apply build_example].
  intros state category crime_type year defaults row. subst row.
  split; [apply build_dom|].
  split; [intros k v; apply build_lookup_default|].
  repeat split; intros H; by rewrite build_lookup_ui.
Qed.

Lemma build_keys_and_values_witness :
  build (VStr "X") (VStr "Y") (VStr "Z") 2027 pop_defaults !! "state"
  = Some (VStr "X").
Proof.
  apply (proj1 build_keys_and_values (VStr "X") (VStr "Y") (VStr "Z") 2027%Z
           pop_defaults).
  reflexivity.
Defined.

(** ** Feature alignment *)

Lemma align_Ok (row : gmap string value) names :
  Forall (λ n, n ∈ dom row) names →
  ∃ vs, align row names = Ok vs ∧ Forall2 (λ n v, row !! n = Some v) names vs.
Proof.
  intros Hall. unfold align.
  destruct (mapM (λ n, row !! n) names) as [vs|] eqn:Hm.
  - exists vs. split; [done|]. by apply mapM_Some.
  - apply mapM_None, Exists_exists in Hm as (n & Hn & Hnone).
    rewrite Forall_forall in Hall. apply Hall in Hn.
    apply elem_of_dom in Hn as [v Hv]. congruence.
Qed.

Lemma align_missing (row : gmap string value) names n :
  n ∈ names → n ∉ dom row →
  align row names = Raise (KeyError (filter (λ n, n ∉ dom row) names)) ∧
  n ∈ filter (λ n, n ∉ dom row) names.
Proof.
  intros Hn Hdom. unfold align.
  rewrite (mapM_None_2 (λ n, row !! n) names); [|].
  - split; [done|]. by apply list_elem_of_filter.
  - apply Exists_exists. exists n. split; [done|].
    by apply not_elem_of_dom.
Qed.

Lemma filter_absent_agree (row row' : gmap string value) (names : list string) :
  (∀ n, n ∈ names → row' !! n = row !! n) →
  filter (λ n, n ∉ dom row') names = filter (λ n, n ∉ dom row) names.
Proof.
  induction names as [|n names IH]; intros Hag; [done|].
  rewrite !filter_cons, IH by (intros m Hm; apply Hag; by right).
  assert (n ∉ dom row' ↔ n ∉ dom row) as Hn
    by (rewrite !not_elem_of_dom, Hag; [done|left]).
  destruct (decide (n ∉ dom row')), (decide (n ∉ dom row)); tauto.
Qed.

Lemma align_agree (row row' : gmap string value) names :
  (∀ n, n ∈ names → row' !! n = row !! n) →
  align row' names = align row names.
Proof.
  intros Hag. unfold align.
  assert (mapM (λ n, row' !! n) names = mapM (λ n, row !! n) names) as ->.
  { apply Forall_mapM_ext, Forall_forall. intros n Hn. by apply Hag. }
  by rewrite (filter_absent_agree row row' names Hag).
Qed.

Example align_example : align abcd_row ["a"; "b"; "c"] = Ok [VInt 1; VInt 2; VInt 3].
Proof. vm_compute. reflexivity. Qed.

Example align_missing_example :
  align abcd_row ["a"; "b"; "missing_col"] = Raise (KeyError ["missing_col"]).
Proof. vm_compute. reflexivity. Qed.

(** C4: alignment returns the row's values of the declared features, in
    the declared order; it fails (with pandas' [KeyError], which names
    the missing features) when a declared feature is absent from the row;
    fields of the row that the Model does not declare play no part in the
    outcome; with feature_name_ = [a, b, c] and the row
    {a: 1, b: 2, c: 3, d: 99} the result is [1, 2, 3]. *)
Theorem align_is_projection :
  (∀ (row : gmap string value) (names : list string),
      (Forall (λ n, n ∈ dom row) names →
       ∃ vs, align row names = Ok vs ∧
             length vs = length names ∧
             ∀ i n, names !! i = Some n → vs !! i = row !! n) ∧
      (∀ n, n ∈ names → n ∉ dom row →
       ∃ missing, align row names = Raise (KeyError missing) ∧ n ∈ missing) ∧
      (∀ extra v, extra ∉ names →
       align (<[extra := v]> row) names = align row names)) ∧
  align {[ "a" := VInt 1; "b" := VInt 2; "c" := VInt 3; "d" := VInt 99 ]}
    ["a"; "b"; "c"] = Ok [VInt 1; VInt 2; VInt 3].
Proof.
  split; [|apply align_example].
  intros row names. split; [|split].
  - intros Hall. destruct (align_Ok row names Hall) as (vs & Hvs & Hf).
    exists vs. split; [done|].
    split; [symmetry; by eapply Forall2_length|].
    intros i n Hi.
    destruct (Forall2_lookup_l _ _ _ _ _ Hf Hi) as (v & Hv & Hrow). congruence.
  - intros n Hn Hdom. eexists. by apply align_missing.
  - intros extra v Hex. apply align_agree.
    intros n Hn. apply lookup_insert_ne. by intros ->.
Qed.

Lemma align_is_projection_witness :
  ∃ vs, align abcd_row ["a"; "b"; "c"] = Ok vs ∧
        length vs = 3%nat ∧
        ∀ i n, ["a"; "b"; "c"] !! i = Some n → vs !! i = abcd_row !! n.
Proof.
  apply (proj1 (proj1 align_is_projection abcd_row ["a"; "b"; "c"])).
  repeat constructor; apply elem_of_dom; eexists; vm_compute; reflexivity.
Defined.

(** ** Label encoding *)

Lemma take_str_id n s : (String.length s ≤ n)%nat → take_str n s = s.
Proof.
  revert n. induction s as [|c s IH]; intros n Hn; destruct n as [|n]; simpl in *;
    try done; try lia.
  f_equal. apply IH. lia.
Qed.

Lemma max_list_ge (l : list nat) n : n ∈ l → (n ≤ max_list l)%nat.
Proof.
  induction l as [|m l IH]; intros Hn; [by apply elem_of_nil in Hn|].
  apply elem_of_cons in Hn as [->|Hn]; simpl; [lia|].
  specialize (IH Hn). lia.
Qed.

Lemma width_ge (l : list string) s : s ∈ l → (String.length s ≤ width l)%nat.
Proof.
  intros Hs. unfold width.
  assert (String.length s ≤ max_list (String.length <$> l))%nat; [|lia].
  apply max_list_ge. by apply list_elem_of_fmap_2.
Qed.

(** The cast leaves the labels of the vocabulary as they are. *)
Lemma cast_known enc label :
  label ∈ classes_ enc → cast_to_classes_dtype enc (VStr label) = VStr label.
Proof.
  intros Hin. unfold cast_to_classes_dtype.
  destruct (classes_dtype enc) as [|float_text]; [done|]. simpl.
  by rewrite take_str_id by by apply width_ge.
Qed.

(** The table built by enumeration: each new entry overrides. *)
Lemma table_snoc (l : list string) (c : string) :
  table (l ++ [c]) = <[c := length l]> (table l).
Proof.
  unfold table. rewrite imap_app, foldl_app. simpl.
  by rewrite Nat.add_0_r.
Qed.

(** The table sends a label to the last position at which it stands. *)
Lemma table_lookup_Some (l : list string) (s : string) (i : nat) :
  table l !! s = Some i ↔
  l !! i = Some s ∧ ∀ j, (i < j)%nat → l !! j ≠ Some s.
Proof.
  revert i. induction l as [|c l IH] using rev_ind; intros i.
  - unfold table. simpl. rewrite lookup_empty. split; [done|].
    by intros [? _].
  - rewrite table_snoc. destruct (decide (c = s)) as [->|Hne].
    + rewrite lookup_insert_eq. split.
      * intros [= <-]. split.
        -- by rewrite lookup_app_r, Nat.sub_diag by lia.
        -- intros j Hj Hlook. apply lookup_lt_Some in Hlook.
           rewrite length_app in Hlook. simpl in Hlook. lia.
      * intros [Hi Hlast]. f_equal.
        apply lookup_lt_Some in Hi as Hlt. rewrite length_app in Hlt.
        simpl in Hlt. destruct (decide (i = length l)) as [->|Hnei]; [done|].
        destruct (Hlast (length l)); [lia|].
        by rewrite lookup_app_r, Nat.sub_diag by lia.
    + rewrite lookup_insert_ne by done. rewrite IH. split.
      * intros [Hi Hlast]. split.
        -- by rewrite lookup_app_l by by eapply lookup_lt_Some.
        -- intros j Hj Hlook. apply lookup_app_Some in Hlook as [Hlook|[_ Hlook]].
           ++ by eapply Hlast.
           ++ apply list_lookup_singleton_Some in Hlook as [_ ->]. done.
      * intros [Hi Hlast]. apply lookup_app_Some in Hi as [Hi|[_ Hi]].
        -- split; [done|]. intros j Hj Hlook. eapply (Hlast j); [done|].
           by rewrite lookup_app_l by by eapply lookup_lt_Some.
        -- apply list_lookup_singleton_Some in Hi as [_ ->]. done.
Qed.

Lemma table_lookup_None (l : list string) (s : string) :
  table l !! s = None ↔ s ∉ l.
Proof.
  induction l as [|c l IH] using rev_ind.
  - unfold table. simpl. rewrite lookup_empty. split; [|done].
    intros _ Hin. by apply elem_of_nil in Hin.
  - rewrite table_snoc, lookup_insert_None, IH, elem_of_app, list_elem_of_singleton.
    split.
    + intros [Hnin Hne] [Hin| ->]; done.
    + intros Hn. split; [tauto|]. intros ->. tauto.
Qed.

Lemma transform_known enc label :
  label ∈ classes_ enc →
  ∃ i, transform enc (VStr label) = Ok (Z.of_nat i) ∧
       classes_ enc !! i = Some label ∧
       ∀ j, (i < j)%nat → classes_ enc !! j ≠ Some label.
Proof.
  intros Hin. unfold transform. rewrite cast_known by done.
  destruct (table (classes_ enc) !! label) as [i|] eqn:Hf.
  - apply table_lookup_Some in Hf as [Hi Hlast]. by exists i.
  - apply table_lookup_None in Hf. by destruct Hf.
Qed.

(** What [transform] does with a value whose cast is the string [s]. *)
Lemma transform_cast enc y s :
  cast_to_classes_dtype enc y = VStr s →
  (s ∈ classes_ enc →
   ∃ i, transform enc y = Ok (Z.of_nat i) ∧ classes_ enc !! i = Some s) ∧
  (s ∉ classes_ enc → transform enc y = Raise (ValueError (VStr s))).
Proof.
  intros Hcast. unfold transform. rewrite Hcast.
  destruct (table (classes_ enc) !! s) as [i|] eqn:Hf.
  - apply table_lookup_Some in Hf as [Hi _]. split.
    + intros _. by exists i.
    + intros Hnin. destruct Hnin. by eapply list_elem_of_lookup_2.
  - apply table_lookup_None in Hf. split; [|done].
    intros Hin. by destruct Hf.
Qed.

Lemma encode_column_encode encoders col (input_df : gmap string value) y :
  input_df !! col = Some y →
  encode_column encoders col input_df
  = code ← encode encoders col y; mret (<[col := VInt code]> input_df).
Proof.
  intros Hy. unfold encode_column, encode, dict_get. rewrite Hy.
  by destruct (getitem encoders col).
Qed.

Example encode_example :
  encode (PEncoders demo_encoders) "state" (VStr "Kedah") = Ok 1%Z ∧
  encode (PEncoders demo_encoders) "state" (VStr "Atlantis")
  = Raise (ValueError (VStr "Atlantis")) ∧
  encode (PEncoders fixed_width_encoders) "state" (VStr "Atlantis")
  = Raise (ValueError (VStr "Atlantis")) ∧
  encode (PEncoders fixed_width_encoders) "state" (VStr "Selangor_Utara") = Ok 2%Z ∧
  encode (PEncoders fixed_width_encoders) "state" (VInt 8)
  = Raise (ValueError (VStr "8")) ∧
  transform repeating_encoder (VStr "assault") = Ok 2%Z.
Proof. repeat split; vm_compute; reflexivity. Qed.




(** ** The artifact loaders *)

Section loaders.
Variable BASE_DIR : string.

Lemma load_unfold k :
  load BASE_DIR k
  = cache_resource (fname_of k) (
      found ← os_path_exists (path_of BASE_DIR k);
      _ ← (if negb found then
             _ ← emit (ErrorBox (missing_message BASE_DIR k)); st_stop
           else mret ());
      joblib_load (path_of BASE_DIR k)).
Proof. by destruct k. Qed.

(** A cached artifact is returned as it is: no file is looked at. *)
Lemma load_hit k w o :
  cache w !! fname_of k = Some o → load BASE_DIR k w = (Ok o, w).
Proof. intros H. rewrite load_unfold. unfold cache_resource. by rewrite H. Qed.

(** No cached artifact and no file: the error box, then [st.stop()]. *)
Lemma load_miss_absent k w :
  cache w !! fname_of k = None → files w !! path_of BASE_DIR k = None →
  load BASE_DIR k w
  = (Raise StopException, shown (ErrorBox (missing_message BASE_DIR k)) w).
Proof.
  intros Hc Hf. rewrite load_unfold. unfold cache_resource. rewrite Hc.
  unfold mbind, M_bind, os_path_exists. rewrite Hf.
  rewrite bool_decide_eq_false_2 by (by intros [? ?]). done.
Qed.

(** No cached artifact but a file that holds a pickle: it is deserialized
    and cached. *)
Lemma load_miss_present k w o :
  cache w !! fname_of k = None →
  files w !! path_of BASE_DIR k = Some (Pickled o) →
  load BASE_DIR k w
  = (Ok o, loaded (fname_of k) (path_of BASE_DIR k) o w).
Proof.
  intros Hc Hf. rewrite load_unfold. unfold cache_resource. rewrite Hc.
  unfold mbind, M_bind, os_path_exists. rewrite Hf.
  rewrite bool_decide_eq_true_2 by done. simpl.
  unfold joblib_load. simpl. by rewrite Hf.
Qed.

(** No cached artifact and a file that does not unpickle: [joblib.load]
    raises, no error box is shown and nothing is cached. *)
Lemma load_miss_unreadable k w :
  cache w !! fname_of k = None →
  files w !! path_of BASE_DIR k = Some Unreadable →
  load BASE_DIR k w
  = (Raise (UnpicklingError (path_of BASE_DIR k)), tried (path_of BASE_DIR k) w).
Proof.
  intros Hc Hf. rewrite load_unfold. unfold cache_resource. rewrite Hc.
  unfold mbind, M_bind, os_path_exists. rewrite Hf.
  rewrite bool_decide_eq_true_2 by done. simpl.
  unfold joblib_load. simpl. by rewrite Hf.
Qed.

(** The four outcomes of a loader. *)
Lemma load_cases k w :
  (∃ o, cache w !! fname_of k = Some o ∧ load BASE_DIR k w = (Ok o, w)) ∨
  (cache w !! fname_of k = None ∧ files w !! path_of BASE_DIR k = None ∧
   load BASE_DIR k w
   = (Raise StopException, shown (ErrorBox (missing_message BASE_DIR k)) w)) ∨
  (∃ o, cache w !! fname_of k = None ∧
        files w !! path_of BASE_DIR k = Some (Pickled o) ∧
        load BASE_DIR k w
        = (Ok o, loaded (fname_of k) (path_of BASE_DIR k) o w)) ∨
  (cache w !! fname_of k = None ∧
   files w !! path_of BASE_DIR k = Some Unreadable ∧
   load BASE_DIR k w
   = (Raise (UnpicklingError (path_of BASE_DIR k)),
      tried (path_of BASE_DIR k) w)).
Proof.
  destruct (cache w !! fname_of k) as [o|] eqn:Hc.
  - left. exists o. split; [done|]. by apply load_hit.
  - right. destruct (files w !! path_of BASE_DIR k) as [[o|]|] eqn:Hf.
    + right. left. exists o. split; [done|]. split; [done|].
      by apply load_miss_present.
    + right. right. split; [done|]. split; [done|]. by apply load_miss_unreadable.
    + left. split; [done|]. split; [done|]. by apply load_miss_absent.
Qed.

(** A loader that returns leaves its result in the cache. *)
Lemma load_Ok_cached k w o :
  (load BASE_DIR k w).1 = Ok o → cache (load BASE_DIR k w).2 !! fname_of k = Some o.
Proof.
  destruct (load_cases k w)
    as [(o' & Hc & ->)|[(_ & _ & ->)|[(o' & _ & _ & ->)|(_ & _ & ->)]]];
    simpl; intros [= <-]; [done|].
  apply lookup_insert_eq.
Qed.

Lemma string_app_inj (d a b : string) : d +:+ a = d +:+ b → a = b.
Proof. induction d as [|c d IH]; simpl; [done|]. intros [= H]. by apply IH. Qed.

Lemma os_path_join_inj (a b : string) :
  os_path_join BASE_DIR a = os_path_join BASE_DIR b → a = b.
Proof.
  unfold os_path_join. destruct (ends_with_slash BASE_DIR); intros H.
  - by eapply string_app_inj.
  - apply string_app_inj in H. simpl in H. by injection H.
Qed.

Lemma path_of_inj k k' : path_of BASE_DIR k = path_of BASE_DIR k' → k = k'.
Proof.
  destruct k, k'; try done; intros H; apply os_path_join_inj in H; discriminate H.
Qed.

Lemma fname_of_inj k k' : fname_of k = fname_of k' → k = k'.
Proof. by destruct k, k'. Qed.
End loaders.

Example occurs_in_examples :
  occurs_in "b/c" "a/b/c.d" = true ∧ occurs_in "b/d" "a/b/c.d" = false.
Proof. split; vm_compute; reflexivity. Qed.

(** What holds of all three loaders when the file is absent and nothing is
    cached: one error box is shown, the script run stops there, nothing is
    loaded and nothing is cached. *)
Lemma load_missing_stops BASE_DIR k w :
  cache w !! fname_of k = None → files w !! path_of BASE_DIR k = None →
  ∃ msg, load BASE_DIR k w = (Raise StopException, shown (ErrorBox msg) w).
Proof. intros Hc Hf. eexists. by apply load_miss_absent. Qed.

(** The model loader does display the path. *)
Lemma load_model_shows_path BASE_DIR :
  ∃ prefix, missing_message BASE_DIR Model = prefix +:+ MODEL_PATH BASE_DIR.
Proof. by eexists. Qed.

(** A page run with the encoder file absent: the header, the error box,
    and nothing after it; the model loaded before stays in the cache. *)
Example prediction_page_missing_encoders :
  let fs : gmap string file :=
    {[ MODEL_PATH "/app" := Pickled (PModel demo_model) ]} in
  let run := prediction_page "/app" demo_inputs (process_start fs) in
  run.1 = Raise StopException ∧
  ui run.2 = [Header "🔮 Crime Prediction";
              ErrorBox "⚠️ Label encoders file not found."] ∧
  loads run.2 = [(MODEL_PATH "/app", true)].
Proof. repeat split; vm_compute; reflexivity. Qed.

(** C5: with the encoder file absent, [load_encoders] shows an error box
    and stops the script run, but the text of the box is a constant that
    does not contain the missing path; [load_defaults] likewise shows only
    the file's base name, while [load_model] shows its path. *)
Theorem load_encoders_missing_hides_path :
  let w := process_start ∅ in
  load_encoders "/app" w
  = (Raise StopException, shown (ErrorBox "⚠️ Label encoders file not found.") w) ∧
  occurs_in (ENCODER_PATH "/app") "⚠️ Label encoders file not found." = false ∧
  load_defaults "/app" w
  = (Raise StopException, shown (ErrorBox "⚠️ defaults.pkl not found.") w) ∧
  occurs_in (DEFAULT_PATH "/app") "⚠️ defaults.pkl not found." = false ∧
  load_model "/app" w
  = (Raise StopException, shown (ErrorBox (missing_message "/app" Model)) w) ∧
  occurs_in (MODEL_PATH "/app") (missing_message "/app" Model) = true.
Proof.
  intros w.
  split; [by apply (load_miss_absent "/app" EncoderBank)|].
  split; [vm_compute; reflexivity|].
  split; [by apply (load_miss_absent "/app" Defaults)|].
  split; [vm_compute; reflexivity|].
  split; [by apply (load_miss_absent "/app" Model)|].
  vm_compute; reflexivity.
Qed.

(** ** Properties of the cache that every script run keeps *)

Section invariants.
Variable BASE_DIR : string.
Variable I : gmap string pickle → list (string * bool) → Prop.
Hypothesis I_load : ∀ k, keeps I (load BASE_DIR k).

Lemma keeps_ret {A} (a : A) : keeps I (mret a).
Proof. by intros w. Qed.

Lemma keeps_bind {A B} (m : M A) (f : A → M B) :
  keeps I m → (∀ a, keeps I (f a)) → keeps I (m ≫= f).
Proof.
  intros Hm Hf w Hw. unfold mbind, M_bind.
  specialize (Hm w Hw). destruct (m w) as [[a|e] w']; [|done].
  by apply Hf.
Qed.

Lemma keeps_lift {A} (r : res A) : keeps I (lift r).
Proof. by intros w. Qed.

Lemma keeps_emit e : keeps I (emit e).
Proof. by intros w. Qed.

Lemma keeps_selectbox label options choice :
  keeps I (st_selectbox label options choice).
Proof.
  apply keeps_bind; [apply keeps_emit|]. intros _. apply keeps_ret.
Qed.

Lemma keeps_show_top5 top5 : ∀ i h m, keeps I (show_top5 i top5 h m).
Proof.
  induction top5 as [|[crime score] top5 IH]; intros i h m; simpl.
  - apply keeps_ret.
  - destruct (risk_branch score h m) as [[risk h'] m'].
    apply keeps_bind; [apply keeps_emit|]. intros _. apply IH.
Qed.

Lemma keeps_show_alert h m : keeps I (show_alert h m).
Proof. unfold show_alert. destruct h, m; apply keeps_emit. Qed.

(** One more step of a sequence: the step keeps [I], and so must the rest. *)
Ltac keeps_next :=
  apply keeps_bind;
  [ first [ apply keeps_emit | apply keeps_lift | apply keeps_selectbox
          | apply keeps_show_alert | apply keeps_show_top5
          | apply (I_load Model) | apply (I_load EncoderBank)
          | apply (I_load Defaults) ]
  | intros ? ].

Lemma keeps_display results : keeps I (display results).
Proof.
  unfold display. do 2 keeps_next.
  match goal with a : bool * bool |- _ => destruct a end.
  do 3 keeps_next. apply keeps_emit.
Qed.

Lemma keeps_predict_trends model encoders DEFAULTS state category year :
  keeps I (predict_trends model encoders DEFAULTS state category year).
Proof. unfold predict_trends. do 2 keeps_next. apply keeps_display. Qed.

Lemma keeps_prediction_page inp : keeps I (prediction_page BASE_DIR inp).
Proof.
  unfold prediction_page. do 11 keeps_next.
  destruct (predict_clicked inp); [apply keeps_predict_trends|apply keeps_ret].
Qed.

Lemma keeps_step w w' : step BASE_DIR w w' → holds I w → holds I w'.
Proof.
  destruct 1 as [k w|inp w|fs page w]; intros Hw.
  - by apply I_load.
  - by apply keeps_prediction_page.
  - done.
Qed.

Lemma keeps_steps w w' : rtc (step BASE_DIR) w w' → holds I w → holds I w'.
Proof. induction 1 as [|w w1 w2 Hs _ IH]; [done|]. intros Hw. eauto using keeps_step. Qed.
End invariants.

(** A cache entry, once there, stays and does not change. *)
Lemma load_keeps_cached BASE_DIR fname o k :
  keeps (λ c _, c !! fname = Some o) (load BASE_DIR k).
Proof.
  intros w Hw. unfold holds in *.
  destruct (load_cases BASE_DIR k w)
    as [(o' & _ & ->)|[(_ & _ & ->)|[(o' & Hc & _ & ->)|(_ & _ & ->)]]];
    simpl; try done.
  rewrite lookup_insert_ne; [done|]. intros <-. congruence.
Qed.

Lemma returned_app log p b :
  returned (log ++ [(p, b)]) = returned log ++ (if b then [p] else []).
Proof.
  unfold returned. rewrite filter_app, fmap_app. f_equal.
  rewrite filter_cons. simpl. by destruct b.
Qed.

(** No path is deserialized twice. *)
Lemma load_keeps_once BASE_DIR k : keeps (once BASE_DIR) (load BASE_DIR k).
Proof.
  intros w [Hnd Hlog]. unfold holds in *.
  destruct (load_cases BASE_DIR k w)
    as [(o' & _ & ->)|[(_ & _ & ->)|[(o' & Hc & _ & ->)|(_ & _ & ->)]]];
    simpl; try done.
  - unfold once. rewrite returned_app. split.
    + apply NoDup_app. split; [done|]. split; [|apply NoDup_singleton].
      intros p Hp Hp'. apply list_elem_of_singleton in Hp' as ->.
      destruct (Hlog _ Hp) as (k' & Hk' & [o'' Ho'']).
      apply path_of_inj in Hk' as <-. congruence.
    + intros p Hp. apply elem_of_app in Hp as [Hp|Hp].
      * destruct (Hlog _ Hp) as (k' & -> & [o'' Ho'']). exists k'. split; [done|].
        destruct (decide (k' = k)) as [->|Hne]; [congruence|].
        rewrite lookup_insert_ne; [by eexists|].
        intros Hf. by apply fname_of_inj in Hf.
      * apply list_elem_of_singleton in Hp as ->. exists k. split; [done|].
        rewrite lookup_insert_eq. by eexists.
  - unfold once. rewrite returned_app, app_nil_r. by split.
Qed.

Lemma filter_path_app (path : string) (log : list (string * bool)) p b :
  p ≠ path →
  filter (λ call, call.1 = path) (log ++ [(p, b)])
  = filter (λ call, call.1 = path) log.
Proof.
  intros Hne. rewrite filter_app, filter_cons. simpl.
  rewrite decide_False by done. apply app_nil_r.
Qed.

(** Once an artifact is cached, [joblib.load] is not called on its path
    again. *)
Lemma load_keeps_quiet_path BASE_DIR k o calls k' :
  keeps (λ c log, c !! fname_of k = Some o ∧
                  filter (λ call, call.1 = path_of BASE_DIR k) log = calls)
    (load BASE_DIR k').
Proof.
  intros w [Hc Hlog]. unfold holds in *.
  destruct (load_cases BASE_DIR k' w)
    as [(o' & _ & ->)|[(_ & _ & ->)|[(o' & Hc' & _ & ->)|(Hc' & _ & ->)]]];
    simpl; try done.
  - assert (k' ≠ k) as Hne by (intros ->; congruence). split.
    + rewrite lookup_insert_ne; [done|]. intros Hf. by apply fname_of_inj in Hf.
    + rewrite filter_path_app; [done|]. intros Hp. by apply path_of_inj in Hp.
  - assert (k' ≠ k) as Hne by (intros ->; congruence). split; [done|].
    rewrite filter_path_app; [done|]. intros Hp. by apply path_of_inj in Hp.
Qed.

Lemma NoDup_filter_eq_length (x : string) (l : list string) :
  NoDup l → (length (filter (λ p, p = x) l) ≤ 1)%nat.
Proof.
  induction 1 as [|y l Hy Hnd IH]; simpl; [lia|].
  rewrite filter_cons. destruct (decide (y = x)) as [->|]; [|done].
  simpl. assert (filter (λ p, p = x) l = []) as ->; [|simpl; lia].
  clear IH Hnd. induction l as [|z l IH]; [done|].
  rewrite filter_cons. apply not_elem_of_cons in Hy as [Hz Hl].
  destruct (decide (z = x)) as [->|]; [done|]. by apply IH.
Qed.

Lemma unreadable_twice_reachable :
  rtc (step "/app") (process_start unreadable_model_files)
    (load "/app" Model
       (load "/app" Model (process_start unreadable_model_files)).2).2.
Proof.
  eapply rtc_l; [apply (step_load "/app" Model)|].
  eapply rtc_l; [apply (step_load "/app" Model)|].
  apply rtc_refl.
Qed.



(** ** The top-5 display and the alert *)

Lemma add_ui_nil w : add_ui [] w = w.
Proof. destruct w. unfold add_ui. simpl. by rewrite app_nil_r. Qed.

Lemma add_ui_app page page' w : add_ui page' (add_ui page w) = add_ui (page ++ page') w.
Proof. unfold add_ui. simpl. by rewrite app_assoc. Qed.

Lemma emit_run e w : emit e w = (Ok (), add_ui [e] w).
Proof. done. Qed.

Lemma show_top5_run top5 : ∀ i h m w,
  show_top5 i top5 h m w = (Ok (detect_from h m top5), add_ui (rank_lines i top5) w).
Proof.
  induction top5 as [|[crime score] top5 IH]; intros i h m w; simpl.
  - by rewrite add_ui_nil.
  - unfold detect_from. simpl. fold (detect_from h m).
    pose proof (risk_branch_label score h m) as Hl.
    destruct (risk_branch score h m) as [[risk h'] m']. simpl in Hl. subst risk.
    unfold mbind, M_bind. rewrite emit_run, IH. by rewrite add_ui_app.
Qed.

Lemma risk_branch_flags score h m :
  risk_branch score h m
  = (classify score, h || bool_decide (classify score = High),
     m || bool_decide (classify score = Moderate)).
Proof.
  unfold classify, risk_branch.
  destruct (Qlt_le_dec 150 score); simpl.
  - by rewrite orb_true_r, orb_false_r.
  - destruct (Qlt_le_dec 80 score); simpl.
    + by rewrite orb_true_r, orb_false_r.
    + by rewrite !orb_false_r.
Qed.

Lemma bool_decide_Exists_cons {A} (P : A → Prop) `{!∀ x, Decision (P x)} x l :
  bool_decide (Exists P (x :: l)) = bool_decide (P x) || bool_decide (Exists P l).
Proof. rewrite <-bool_decide_or. apply bool_decide_ext, Exists_cons. Qed.

Lemma detect_from_cons h m crime score l :
  detect_from h m ((crime, score) :: l)
  = detect_from (risk_branch score h m).1.2 (risk_branch score h m).2 l.
Proof. unfold detect_from. simpl. by destruct (risk_branch score h m) as [[? ?] ?]. Qed.

Lemma detect_from_flags l : ∀ h m,
  detect_from h m l
  = (h || bool_decide (Exists (λ e, classify (key e) = High) l),
     m || bool_decide (Exists (λ e, classify (key e) = Moderate) l)).
Proof.
  induction l as [|[crime score] l IH]; intros h m.
  - unfold detect_from. simpl. by rewrite !orb_false_r.
  - rewrite detect_from_cons, risk_branch_flags, IH. simpl.
    rewrite !bool_decide_Exists_cons. unfold key at 1 3. simpl.
    by rewrite !orb_assoc.
Qed.

Lemma alert_tier_priority l : alert_tier l = priority_tier l.
Proof.
  unfold alert_tier, detect, priority_tier, tier_of_flags.
  rewrite detect_from_flags. simpl.
  destruct (decide (Exists (λ e, classify (key e) = High) l)) as [Hh|Hh].
  - by rewrite bool_decide_eq_true_2.
  - rewrite bool_decide_eq_false_2 by done.
    destruct (decide (Exists (λ e, classify (key e) = Moderate) l)) as [Hm|Hm].
    + by rewrite bool_decide_eq_true_2.
    + by rewrite bool_decide_eq_false_2.
Qed.

Lemma show_alert_run h m w :
  show_alert h m w = (Ok (), add_ui [alert_event (tier_of_flags h m)] w).
Proof. by destruct h, m. Qed.

Lemma alerts_app page page' : alerts (page ++ page') = alerts page ++ alerts page'.
Proof. unfold alerts. apply omap_app. Qed.

Lemma alerts_rank_lines top5 : ∀ i, alerts (rank_lines i top5) = [].
Proof. induction top5 as [|[crime score] top5 IH]; intros i; simpl; [done|apply IH]. Qed.

Lemma alerts_alert_event t : alerts [alert_event t] = [t].
Proof. destruct t; vm_compute; reflexivity. Qed.

Lemma display_run results w :
  ∃ actions, display results w
  = (Ok (), add_ui (display_page results ++ [Markdown actions]) w).
Proof.
  eexists. unfold display, display_page.
  unfold mbind at 1, M_bind at 1. rewrite emit_run.
  unfold mbind at 1, M_bind at 1. rewrite show_top5_run.
  fold (detect (rank results)).
  destruct (detect (rank results)) as [h m] eqn:Hd.
  unfold mbind at 1, M_bind at 1. rewrite show_alert_run.
  unfold mbind at 1, M_bind at 1. rewrite emit_run.
  unfold mbind at 1, M_bind at 1. rewrite emit_run.
  rewrite emit_run. rewrite !add_ui_app.
  unfold alert_tier. rewrite Hd. simpl.
  by rewrite <-!app_assoc.
Qed.

Lemma alerts_display_page results actions :
  alerts (display_page results ++ [Markdown actions])
  = [priority_tier (rank results)].
Proof.
  unfold display_page. rewrite !alerts_app, alerts_rank_lines, alerts_alert_event.
  by rewrite alert_tier_priority.
Qed.

(** ** The scoring loop *)

Lemma score_all_Raise model encoders DEFAULTS state category year crime_types :
  ∀ results crime_type e,
    crime_type ∈ crime_types →
    score_candidate model encoders DEFAULTS state category year crime_type = Raise e →
    ∃ e', score_all model encoders DEFAULTS state category year crime_types results
          = Raise e'.
Proof.
  induction crime_types as [|ct crime_types IH]; intros results crime_type e Hin He.
  - by apply elem_of_nil in Hin.
  - simpl.
    destruct (score_candidate model encoders DEFAULTS state category year ct)
      as [r|e0] eqn:Hct; simpl.
    + apply elem_of_cons in Hin as [->|Hin]; [congruence|]. by eapply IH.
    + by exists e0.
Qed.

Lemma score_all_Ok model encoders DEFAULTS state category year crime_types :
  ∀ results,
    Forall (λ ct, is_Ok (score_candidate model encoders DEFAULTS state category
                           year ct) = true) crime_types →
    ∃ scored,
      score_all model encoders DEFAULTS state category year crime_types results
      = Ok (results ++ scored) ∧
      Forall2 (λ ct r, score_candidate model encoders DEFAULTS state category
                         year ct = Ok r) crime_types scored.
Proof.
  induction crime_types as [|ct crime_types IH]; intros results Hall.
  - exists []. by rewrite app_nil_r.
  - apply Forall_cons in Hall as [Hct Hall]. simpl.
    destruct (score_candidate model encoders DEFAULTS state category year ct)
      as [r|e0] eqn:Hr; [|done]. simpl.
    destruct (IH (results ++ [r]) Hall) as (scored & -> & Hf).
    exists (r :: scored). split; [by rewrite <-app_assoc|]. by constructor.
Qed.

Lemma predict_trends_scored model encoders DEFAULTS state category year enc results w :
  getitem encoders "type" = Ok enc →
  score_all model encoders DEFAULTS state category year (classes_ enc) [] = Ok results →
  predict_trends model encoders DEFAULTS state category year w = display results w.
Proof.
  intros Henc Hres. unfold predict_trends, mbind, M_bind, lift.
  by rewrite Henc, Hres.
Qed.

(** C8: when the scoring of one candidate crime type raises, the loop
    raises, and the body of the Predict button ends there with the page as
    it was: no ranking line, no alert, nothing computed from the
    candidates scored before the failure. *)
Theorem scoring_failure_aborts_ranking
    (model encoders DEFAULTS : pickle) (state category : value) (year : Z)
    (enc : LabelEncoder) (crime_type : string) (e : exn) (w : world) :
  getitem encoders "type" = Ok enc →
  crime_type ∈ classes_ enc →
  score_candidate model encoders DEFAULTS state category year crime_type = Raise e →
  ∃ e', score_all model encoders DEFAULTS state category year (classes_ enc) []
        = Raise e' ∧
        predict_trends model encoders DEFAULTS state category year w
        = (Raise e', w).
Proof.
  intros Henc Hin He.
  destruct (score_all_Raise model encoders DEFAULTS state category year
              (classes_ enc) [] crime_type e Hin He) as [e' He'].
  exists e'. split; [done|].
  unfold predict_trends, mbind, M_bind, lift. by rewrite Henc, He'.
Qed.

Lemma scoring_failure_aborts_ranking_witness :
  ∃ e', score_all (PModel drifted_model) (PEncoders demo_encoders)
          (PDefaults pop_defaults) (VStr "Kedah") (VStr "assault") 2027
          ["T01"; "T02"; "T03"; "T04"; "T05"; "T06"; "T07"; "T08"; "T09"; "T10"] []
        = Raise e' ∧
        predict_trends (PModel drifted_model) (PEncoders demo_encoders)
          (PDefaults pop_defaults) (VStr "Kedah") (VStr "assault") 2027
          (process_start demo_files)
        = (Raise e', process_start demo_files).
Proof.
  refine (scoring_failure_aborts_ranking (PModel drifted_model)
            (PEncoders demo_encoders) (PDefaults pop_defaults)
            (VStr "Kedah") (VStr "assault") 2027
            type_encoder
            "T04" (KeyError ["gdp"]) (process_start demo_files) _ _ _).
  - vm_compute. reflexivity.
  - simpl. do 3 right. left.
  - vm_compute. reflexivity.
Defined.

(** C9: in a run that scores every candidate, the page gets exactly one
    alert, chosen by priority over the labels of the top 5: High if any of
    them is High, else Moderate if any is Moderate, else Stable. *)
Theorem one_alert_by_priority
    (model encoders DEFAULTS : pickle) (state category : value) (year : Z)
    (enc : LabelEncoder) (results : list result) (w : world) :
  getitem encoders "type" = Ok enc →
  score_all model encoders DEFAULTS state category year (classes_ enc) [] = Ok results →
  ∃ page,
    predict_trends model encoders DEFAULTS state category year w
    = (Ok (), add_ui page w) ∧
    alerts page
    = [ if decide (Exists (λ e, classify e.2 = High) (rank results))
        then AlertHigh
        else if decide (Exists (λ e, classify e.2 = Moderate) (rank results))
        then AlertModerate
        else AlertStable ].
Proof.
  intros Henc Hres.
  rewrite (predict_trends_scored _ _ _ _ _ _ enc results) by done.
  destruct (display_run results w) as [actions ->].
  eexists. split; [done|]. apply alerts_display_page.
Qed.

Lemma one_alert_by_priority_witness :
  ∃ page,
    predict_trends (PModel demo_model) (PEncoders demo_encoders)
      (PDefaults pop_defaults) (VStr "Kedah") (VStr "assault") 2027
      (process_start demo_files)
    = (Ok (), add_ui page (process_start demo_files)) ∧
    alerts page = [AlertHigh].
Proof.
  refine (one_alert_by_priority (PModel demo_model) (PEncoders demo_encoders)
            (PDefaults pop_defaults) (VStr "Kedah") (VStr "assault") 2027
            type_encoder
            [("T01", 10%Q); ("T02", 10%Q); ("T03", 200%Q); ("T04", 10%Q);
             ("T05", 160%Q); ("T06", 10%Q); ("T07", 90%Q); ("T08", 10%Q);
             ("T09", 10%Q); ("T10", 10%Q)]
            (process_start demo_files) _ _).
  - vm_compute. reflexivity.
  - vm_compute. reflexivity.
Defined.

(** The end-to-end run: ten crime types, T03 scoring 200, T05 160, T07 90
    and the others 10. *)
Example prediction_page_example :
  (prediction_page "/app" demo_inputs (process_start demo_files)).1 = Ok () ∧
  filter (λ e, is_ranking_event e = true)
    (ui (prediction_page "/app" demo_inputs (process_start demo_files)).2)
  = [Subheader "🚨 Top 5 Predicted Crime Types";
     RankLine 1 "T03" High; RankLine 2 "T05" High; RankLine 3 "T07" Moderate;
     RankLine 4 "T01" Low; RankLine 5 "T02" Low] ∧
  alerts (ui (prediction_page "/app" demo_inputs (process_start demo_files)).2)
  = [AlertHigh].
Proof. repeat split; vm_compute; reflexivity. Qed.


(** ** The top 5 and the alert over all results *)

Lemma rank_subseteq results : rank results ⊆ results.
Proof.
  intros e He. unfold rank in He. apply subseteq_take in He.
  by rewrite sorted_desc_perm in He.
Qed.

(** The first entry of the ranking scores at least as high as any result. *)
Lemma rank_head_max results e :
  e ∈ results → ∃ top, rank results !! 0%nat = Some top ∧ (key e <= key top)%Q.
Proof.
  intros He. rewrite <-sorted_desc_perm in He.
  pose proof (sorted_desc_sorted results) as Hs. unfold rank.
  destruct (sorted_desc results) as [|top l]; [by apply elem_of_nil in He|].
  exists top. split; [done|].
  apply elem_of_cons in He as [->|He]; [apply Qle_refl|].
  apply StronglySorted_inv in Hs as [_ Hall].
  rewrite Forall_forall in Hall. by apply Hall.
Qed.

Lemma rank_above results e (threshold : Q) :
  e ∈ results → (threshold < key e)%Q →
  ∃ top, top ∈ rank results ∧ (threshold < key top)%Q.
Proof.
  intros He Hth. destruct (rank_head_max results e He) as (top & Htop & Hle).
  exists top. split; [by eapply list_elem_of_lookup_2|].
  by eapply Qlt_le_trans.
Qed.

Lemma rank_Exists_High results :
  Exists (λ e, classify (key e) = High) (rank results)
  ↔ Exists (λ e, classify (key e) = High) results.
Proof.
  rewrite !Exists_exists. split.
  - intros (e & He & Hc). exists e. split; [by apply rank_subseteq|done].
  - intros (e & He & Hc). apply classify_High in Hc.
    destruct (rank_above results e 150 He Hc) as (top & Htop & Hlt).
    exists top. split; [done|]. by apply classify_High.
Qed.

Lemma rank_Exists_Moderate results :
  ¬ Exists (λ e, classify (key e) = High) results →
  Exists (λ e, classify (key e) = Moderate) (rank results)
  ↔ Exists (λ e, classify (key e) = Moderate) results.
Proof.
  intros Hno. rewrite !Exists_exists. split.
  - intros (e & He & Hc). exists e. split; [by apply rank_subseteq|done].
  - intros (e & He & Hc). apply classify_Moderate in Hc as [H80 _].
    destruct (rank_above results e 80 He H80) as (top & Htop & Hlt).
    exists top. split; [done|]. apply classify_Moderate. split; [done|].
    destruct (Qlt_le_dec 150 (key top)) as [Hhigh|]; [|done].
    destruct Hno. apply Exists_exists. exists top.
    split; [by apply rank_subseteq|]. by apply classify_High.
Qed.

Lemma priority_tier_rank results :
  priority_tier (rank results) = priority_tier results.
Proof.
  unfold priority_tier.
  destruct (decide (Exists (λ e, classify (key e) = High) results)) as [Hh|Hh].
  - rewrite decide_True; [done|]. by apply rank_Exists_High.
  - rewrite decide_False by (by rewrite rank_Exists_High).
    destruct (decide (Exists (λ e, classify (key e) = Moderate) results)) as [Hm|Hm].
    + rewrite decide_True; [done|]. by apply rank_Exists_Moderate.
    + rewrite decide_False; [done|]. by rewrite rank_Exists_Moderate.
Qed.

(** C10, as the claim states it, fails: with six candidates above 150 the
    sixth is a High-risk crime type that is not among the top 5. *)
Lemma high_risk_outside_top5 :
  ¬ (∀ (results : list result) (e : result),
       e ∈ results → (150 < e.2)%Q → e ∈ rank results).
Proof.
  intros H. specialize (H six_high ("f", 200%Q)).
  assert (("f", 200%Q) ∈ rank six_high) as Hin.
  { apply H; [|reflexivity]. unfold six_high. do 5 right. left. }
  vm_compute in Hin.
  repeat (apply elem_of_cons in Hin as [Hin|Hin]; [discriminate Hin|]).
  by apply elem_of_nil in Hin.
Qed.

(** A result that the cut leaves out stands behind five ranked entries
    that all score at least as high. *)
Lemma rank_left_out results e :
  e ∈ results →
  e ∈ rank results ∨
  (length (rank results) = 5%nat ∧
   ∀ top, top ∈ rank results → (key e <= key top)%Q).
Proof.
  intros He. rewrite <-sorted_desc_perm in He.
  rewrite <-(take_drop 5 (sorted_desc results)) in He.
  apply elem_of_app in He as [He|He]; [by left|]. right. split.
  - unfold rank. rewrite length_take.
    assert (5 < length (sorted_desc results))%nat; [|lia].
    destruct (decide (5 < length (sorted_desc results))%nat) as [|Hle]; [done|].
    rewrite drop_ge in He by lia. by apply elem_of_nil in He.
  - intros top Htop.
    pose proof (sorted_desc_sorted results) as Hs.
    rewrite <-(take_drop 5 (sorted_desc results)) in Hs.
    by eapply (StronglySorted_app_1_elem_of desc).
Qed.

(** C10 (amended): the alert tier computed from the top 5 equals the tier
    computed over all scored crime types: the ranking is by descending
    score and the tiers are monotone in the score, so a candidate that
    scores above a tier threshold (150 or 80) either appears in the top 5
    or is left out behind five displayed entries that all score at least
    as high, hence above that threshold too; a High- or Moderate-risk
    crime type is hidden only behind five displayed crime types of at
    least its tier, and whenever some candidate scores above a threshold
    an entry of the top 5 does.  The top 5 contains only entries of the
    results. *)
Theorem alert_tier_top5_is_global (results : list result) :
  alert_tier (rank results) = alert_tier results ∧
  (∀ e, e ∈ results →
        e ∈ rank results ∨
        (length (rank results) = 5%nat ∧
         ∀ top, top ∈ rank results → (e.2 <= top.2)%Q)) ∧
  (∀ e threshold, e ∈ results → e ∉ rank results → (threshold < e.2)%Q →
        length (rank results) = 5%nat ∧
        ∀ top, top ∈ rank results → (threshold < top.2)%Q) ∧
  (∀ e, e ∈ results → (150 < e.2)%Q →
        ∃ top, top ∈ rank results ∧ (150 < top.2)%Q) ∧
  (∀ e, e ∈ results → (80 < e.2)%Q →
        ∃ top, top ∈ rank results ∧ (80 < top.2)%Q) ∧
  (∀ e, e ∈ rank results → e ∈ results).
Proof.
  split; [by rewrite !alert_tier_priority, priority_tier_rank|].
  split; [intros e; apply rank_left_out|].
  split.
  { intros e threshold He Hout Hth.
    destruct (rank_left_out results e He) as [Hin|[Hlen Hall]]; [done|].
    split; [done|]. intros top Htop.
    eapply Qlt_le_trans; [exact Hth|]. by apply Hall. }
  split; [intros e; apply rank_above|].
  split; [intros e; apply rank_above|].
  apply rank_subseteq.
Qed.

Lemma alert_tier_top5_is_global_witness :
  ("f", 200%Q) ∈ rank six_high ∨
  (length (rank six_high) = 5%nat ∧
   ∀ top, top ∈ rank six_high → (("f", 200%Q).2 <= top.2)%Q).
Proof.
  refine (proj1 (proj2 (alert_tier_top5_is_global six_high)) ("f", 200%Q) _).
  unfold six_high. do 5 right. left.
Defined.

(** * Further properties of the pipeline *)

(** ** Ranking and display *)

(** X1: with at most five results nothing is cut: the ranking is the whole
    sorted list, a rearrangement of the results. *)
Theorem rank_keeps_all_when_short (results : list result) :
  (length results ≤ 5)%nat →
  rank results = sorted_desc results ∧ rank results ≡ₚ results.
Proof.
  intros Hlen. unfold rank.
  rewrite take_ge by (by rewrite sorted_desc_length).
  split; [done|apply sorted_desc_perm].
Qed.

Lemma rank_keeps_all_when_short_witness :
  rank three_results = sorted_desc three_results ∧ rank three_results ≡ₚ three_results.
Proof. apply rank_keeps_all_when_short. simpl. lia. Defined.

Lemma rank_lines_lookup top5 : ∀ start i crime score,
  top5 !! i = Some (crime, score) →
  rank_lines start top5 !! i
  = Some (RankLine (start + i) (display_name crime) (classify score)).
Proof.
  induction top5 as [|[c s] top5 IH]; intros start i crime score Hi; [done|].
  destruct i as [|i]; simpl in *.
  - injection Hi as -> ->. by rewrite Nat.add_0_r.
  - replace (start + S i)%nat with (S start + i)%nat by lia. by apply IH.
Qed.

Lemma rank_lines_length top5 : ∀ start, length (rank_lines start top5) = length top5.
Proof.
  induction top5 as [|[c s] top5 IH]; intros start; simpl; [done|]. by rewrite IH.
Qed.

Lemma rank_lines_of_app page page' :
  rank_lines_of (page ++ page') = rank_lines_of page ++ rank_lines_of page'.
Proof. unfold rank_lines_of. apply filter_app. Qed.

Lemma rank_lines_of_cons e page :
  rank_lines_of (e :: page)
  = if is_rank_line e then e :: rank_lines_of page else rank_lines_of page.
Proof.
  unfold rank_lines_of. rewrite filter_cons.
  destruct (is_rank_line e); by case_decide.
Qed.

Lemma rank_lines_of_rank_lines top5 : ∀ start,
  rank_lines_of (rank_lines start top5) = rank_lines start top5.
Proof.
  induction top5 as [|[c s] top5 IH]; intros start; simpl; [done|].
  rewrite rank_lines_of_cons. simpl. by rewrite IH.
Qed.

Lemma rank_lines_of_display_page results actions :
  rank_lines_of (display_page results ++ [Markdown actions])
  = rank_lines 1 (rank results).
Proof.
  unfold display_page. rewrite !rank_lines_of_app, rank_lines_of_rank_lines.
  rewrite !rank_lines_of_cons.
  destruct (alert_tier (rank results)); simpl;
    change (rank_lines_of []) with (@nil ui_event); by rewrite !app_nil_r.
Qed.

Example display_name_examples :
  display_name "motor_theft" = "Motor Theft" ∧
  display_name "DUI" = "Dui" ∧
  display_name "break_in_2nd" = "Break In 2Nd".
Proof. repeat split; vm_compute; reflexivity. Qed.

(** X2: the display puts one line on the page for each entry of the top 5,
    in ranking order and numbered from 1, each with the name of the crime
    type as it is printed (underscores replaced by blanks, then put in
    title case) and the risk label of its score; there are
    min(5, |results|) of them. *)
Theorem display_numbers_top5 (results : list result) (w : world) :
  ∃ page,
    display results w = (Ok (), add_ui page w) ∧
    length (rank_lines_of page) = 5 `min` length results ∧
    ∀ i crime score,
      rank results !! i = Some (crime, score) →
      rank_lines_of page !! i
      = Some (RankLine (S i) (title (replace_char "_" " " crime))
                (classify score)).
Proof.
  destruct (display_run results w) as [actions ->].
  eexists. split; [done|].
  rewrite rank_lines_of_display_page, rank_lines_length, rank_length.
  split; [done|]. intros i crime score Hi.
  by rewrite (rank_lines_lookup _ 1 i crime score Hi).
Qed.

(** X3: the two flags the top-5 loop hands to the alert: the first is set
    exactly when some entry scores above 150, the second exactly when some
    entry scores above 80 and at most 150; an entry above 150 does not set
    the second. *)
Theorem show_top5_flags (top5 : list result) (w : world) :
  ∃ high moderate,
    (show_top5 1 top5 false false w).1 = Ok (high, moderate) ∧
    (high = true ↔ ∃ e, e ∈ top5 ∧ (150 < e.2)%Q) ∧
    (moderate = true ↔ ∃ e, e ∈ top5 ∧ (80 < e.2)%Q ∧ (e.2 <= 150)%Q).
Proof.
  rewrite show_top5_run, detect_from_flags. simpl.
  eexists _, _. split; [done|].
  rewrite !bool_decide_eq_true, !Exists_exists. split.
  - split; intros (e & He & Hc); exists e; (split; [done|]);
      by apply classify_High.
  - split; intros (e & He & Hc); exists e; (split; [done|]);
      by apply classify_Moderate.
Qed.

(** X4: when no result scores above 80 (in particular when there is no
    result at all, the vocabulary of crime types being empty), the display
    announces a stable situation, and nothing else. *)
Theorem display_stable_when_all_low (results : list result) (w : world) :
  (∀ e, e ∈ results → (e.2 <= 80)%Q) →
  ∃ page,
    display results w = (Ok (), add_ui page w) ∧
    alerts page = [AlertStable].
Proof.
  intros Hlow. destruct (display_run results w) as [actions ->].
  eexists. split; [done|].
  rewrite alerts_display_page, priority_tier_rank. unfold priority_tier.
  rewrite decide_False, decide_False; [done| |]; rewrite Exists_exists;
    intros (e & He & Hc); specialize (Hlow e He).
  - apply classify_Moderate in Hc as [Hc _]. by apply Qlt_not_le in Hc.
  - apply classify_High in Hc. apply Qlt_not_le in Hc. apply Hc.
    eapply Qle_trans; [exact Hlow|]. by apply Qle_bool_imp_le.
Qed.

Lemma display_stable_when_all_low_witness :
  ∃ page,
    display calm_results (process_start ∅)
    = (Ok (), add_ui page (process_start ∅)) ∧
    alerts page = [AlertStable].
Proof.
  apply display_stable_when_all_low.
  intros e He. unfold calm_results in He.
  repeat (apply elem_of_cons in He as [->|He]; [by apply Qle_bool_imp_le|]).
  by apply elem_of_nil in He.
Defined.

(** ** Encoding and the scoring loop *)

Lemma transform_at (enc : LabelEncoder) (i : nat) (s : string) :
  NoDup (classes_ enc) → classes_ enc !! i = Some s →
  transform enc (VStr s) = Ok (Z.of_nat i).
Proof.
  intros Hnd Hi.
  destruct (transform_known enc s) as (j & Hj & Hlook & _);
    [by eapply list_elem_of_lookup_2|].
  by rewrite (NoDup_lookup _ i j s Hnd Hi Hlook).
Qed.

(** X5: encoding then decoding gives back the label.  On a vocabulary
    without repetition [transform] sends the label at position [i] to
    [i]; on any vocabulary it sends that label to the last position at
    which the label stands; and the label at the position [transform]
    returns for any string is that string as cast to the dtype of the
    vocabulary, which is the string itself when the vocabulary holds
    Python objects. *)
Theorem transform_round_trip (enc : LabelEncoder) (i : nat) (s : string) :
  (NoDup (classes_ enc) → classes_ enc !! i = Some s →
   transform enc (VStr s) = Ok (Z.of_nat i)) ∧
  (classes_ enc !! i = Some s →
   ∃ j, transform enc (VStr s) = Ok (Z.of_nat j) ∧
        classes_ enc !! j = Some s ∧ (i ≤ j)%nat ∧
        ∀ j', (j < j')%nat → classes_ enc !! j' ≠ Some s) ∧
  (transform enc (VStr s) = Ok (Z.of_nat i) →
   ∃ s', cast_to_classes_dtype enc (VStr s) = VStr s' ∧
         classes_ enc !! i = Some s' ∧
         (classes_dtype enc = dtype_object → s' = s)).
Proof.
  split; [|split].
  - apply transform_at.
  - intros Hi.
    destruct (transform_known enc s) as (j & Hj & Hlook & Hlast);
      [by eapply list_elem_of_lookup_2|].
    exists j. repeat split; try done.
    destruct (decide (i ≤ j)%nat) as [|Hgt]; [done|].
    destruct (Hlast i); [lia|done].
  - unfold transform, cast_to_classes_dtype.
    destruct (classes_dtype enc) as [|float_text]; simpl.
    + destruct (table (classes_ enc) !! s) as [j|] eqn:Hf; [|done].
      apply table_lookup_Some in Hf as [Hj _].
      intros [= Hij]. apply Nat2Z.inj in Hij. subst j. by exists s.
    + set (cut := take_str (width (classes_ enc)) s).
      destruct (table (classes_ enc) !! cut) as [j|] eqn:Hf; [|done].
      apply table_lookup_Some in Hf as [Hj _].
      intros [= Hij]. apply Nat2Z.inj in Hij. subst j. by exists cut.
Qed.

Lemma transform_round_trip_witness :
  transform state_encoder (VStr "Kedah") = Ok (Z.of_nat 1).
Proof.
  apply (proj1 (transform_round_trip state_encoder 1 "Kedah")).
  - simpl. apply (bool_decide_unpack _). vm_compute. exact I.
  - reflexivity.
Defined.



Lemma score_all_acc model encoders DEFAULTS state category year crime_types :
  ∀ acc results,
    score_all model encoders DEFAULTS state category year crime_types acc
    = Ok results
    ↔ ∃ scored,
        results = acc ++ scored ∧
        Forall2 (λ ct r, score_candidate model encoders DEFAULTS state category
                           year ct = Ok r) crime_types scored.
Proof.
  induction crime_types as [|ct crime_types IH]; intros acc results; simpl.
  - split.
    + intros [= <-]. exists []. by rewrite app_nil_r.
    + intros (scored & -> & Hf). apply Forall2_nil_inv_l in Hf as ->.
      by rewrite app_nil_r.
  - destruct (score_candidate model encoders DEFAULTS state category year ct)
      as [r|e] eqn:Hct; simpl.
    + rewrite IH. split.
      * intros (scored & -> & Hf). exists (r :: scored).
        split; [by rewrite <-app_assoc|]. by constructor.
      * intros (scored & -> & Hf).
        apply Forall2_cons_inv_l in Hf as (r' & scored' & Hr' & Hf & ->).
        exists scored'. split; [|done]. rewrite <-app_assoc. simpl. congruence.
    + split; [done|]. intros (scored & _ & Hf).
      apply Forall2_cons_inv_l in Hf as (r' & scored' & Hr' & _ & _). congruence.
Qed.

(** X7: the loop returns a list of results exactly when every candidate is
    scored, and then the list has one result per crime type, in the order
    of the vocabulary, each being that candidate's own result (its raw
    label with its score). *)
Theorem score_all_one_result_per_type
    (model encoders DEFAULTS : pickle) (state category : value) (year : Z)
    (crime_types : list string) (results : list result) :
  score_all model encoders DEFAULTS state category year crime_types [] = Ok results
  ↔ Forall2 (λ ct r,
               score_candidate model encoders DEFAULTS state category year ct
               = Ok r) crime_types results.
Proof.
  rewrite score_all_acc. simpl. split.
  - by intros (scored & -> & Hf).
  - intros Hf. by exists results.
Qed.

Lemma score_candidate_label model encoders DEFAULTS state category year ct r :
  score_candidate model encoders DEFAULTS state category year ct = Ok r → r.1 = ct.
Proof.
  unfold score_candidate. intros H.
  repeat match type of H with
         | (mbind _ ?m) = _ => destruct m eqn:?; simpl in H; [|done]
         end.
  by injection H as <-.
Qed.

(** X8: the results carry the raw labels: the crime types of the results
    are the vocabulary itself, in its order. *)
Theorem score_all_labels
    (model encoders DEFAULTS : pickle) (state category : value) (year : Z)
    (crime_types : list string) (results : list result) :
  score_all model encoders DEFAULTS state category year crime_types [] = Ok results →
  results.*1 = crime_types.
Proof.
  rewrite score_all_acc. simpl. intros (scored & -> & Hf).
  induction Hf as [|ct r cts rs Hr _ IH]; [done|].
  rewrite fmap_cons. f_equal; [|done].
  by eapply score_candidate_label.
Qed.

Lemma score_all_labels_witness :
  [("T01", 10%Q); ("T02", 10%Q); ("T03", 200%Q)].*1 = ["T01"; "T02"; "T03"].
Proof.
  apply (score_all_labels (PModel demo_model) (PEncoders demo_encoders)
           (PDefaults pop_defaults) (VStr "Kedah") (VStr "assault") 2027).
  vm_compute. reflexivity.
Defined.

(** X9: the loop stops at the first candidate that fails, with that
    candidate's exception; the candidates after it do not matter. *)
Theorem score_all_first_failure
    (model encoders DEFAULTS : pickle) (state category : value) (year : Z)
    (before after : list string) (crime_type : string) (e : exn) :
  Forall (λ ct, is_Ok (score_candidate model encoders DEFAULTS state category
                         year ct) = true) before →
  score_candidate model encoders DEFAULTS state category year crime_type = Raise e →
  score_all model encoders DEFAULTS state category year
    (before ++ crime_type :: after) [] = Raise e.
Proof.
  intros Hbefore He. generalize (@nil result).
  induction Hbefore as [|ct before Hct _ IH]; intros acc; simpl.
  - by rewrite He.
  - destruct (score_candidate model encoders DEFAULTS state category year ct);
      [|done]. simpl. apply IH.
Qed.

Lemma score_all_first_failure_witness :
  score_all (PModel demo_model) (PEncoders demo_encoders)
    (PDefaults pop_defaults) (VStr "Kedah") (VStr "assault") 2027
    (["T01"; "T02"] ++ "T99" :: ["T03"; "T98"]) []
  = Raise (ValueError (VStr "T99")).
Proof.
  apply score_all_first_failure.
  - repeat constructor; vm_compute; reflexivity.
  - vm_compute. reflexivity.
Defined.

(** ** Scoring with valid artifacts *)

Lemma encoded_input_build state category crime_type year defaults si ci ti :
  <["type" := VInt ti]>
    (<["category" := VInt ci]>
       (<["state" := VInt si]>
          (build state category crime_type year defaults)))
  = encoded_input si ci ti year defaults.
Proof.
  unfold encoded_input. rewrite build_union. unfold base_input.
  apply map_eq. intros k.
  destruct (decide (k = "type")) as [->|Ht]; [by rewrite !lookup_insert_eq|].
  rewrite !(lookup_insert_ne _ "type") by done.
  destruct (decide (k = "category")) as [->|Hc]; [by rewrite !lookup_insert_eq|].
  rewrite !(lookup_insert_ne _ "category") by done.
  destruct (decide (k = "state")) as [->|Hs]; [by rewrite !lookup_insert_eq|].
  rewrite !(lookup_insert_ne _ "state") by done.
  rewrite !lookup_union.
  by rewrite !(lookup_insert_ne _ _ k), ?lookup_singleton by done.
Qed.

(** The encoding of one column that the defaults do not name. *)
Lemma build_lookup_label state category crime_type year
    (defaults : gmap string value) col v :
  base_input state category crime_type year !! col = Some v →
  defaults !! col = None →
  build state category crime_type year defaults !! col = Some v.
Proof. intros Hb Hd. by rewrite build_lookup_ui. Qed.

Lemma encode_column_eval encs col enc (input_df : gmap string value) y code :
  encs !! col = Some enc → input_df !! col = Some y → transform enc y = Ok code →
  encode_column (PEncoders encs) col input_df = Ok (<[col := VInt code]> input_df).
Proof.
  intros Henc Hy Hcode. unfold encode_column, getitem, dict_get.
  rewrite Henc. simpl. rewrite Hy. simpl. by rewrite Hcode.
Qed.

Lemma score_candidate_eval m encs defaults es ec et s c ct year si ci ti :
  encs !! "state" = Some es → encs !! "category" = Some ec →
  encs !! "type" = Some et →
  defaults !! "state" = None → defaults !! "category" = None →
  defaults !! "type" = None →
  transform es s = Ok si → transform ec c = Ok ci →
  transform et (VStr ct) = Ok ti →
  score_candidate (PModel m) (PEncoders encs) (PDefaults defaults) s c year ct
  = (row ← align (encoded_input si ci ti year defaults) (feature_name_ m);
     pred ← predict m row; mret (ct, pred)).
Proof.
  intros Hes Hec Het Hds Hdc Hdt Hs Hc Ht.
  unfold score_candidate. simpl.
  rewrite (encode_column_eval encs "state" es _ s si); [|done| |done].
  2: { by apply build_lookup_label. }
  simpl.
  rewrite (encode_column_eval encs "category" ec _ c ci); [|done| |done].
  2: { rewrite lookup_insert_ne by done. by apply build_lookup_label. }
  simpl.
  rewrite (encode_column_eval encs "type" et _ (VStr ct) ti); [|done| |done].
  2: { rewrite !lookup_insert_ne by done. by apply build_lookup_label. }
  simpl. by rewrite encoded_input_build.
Qed.

Lemma dom_encoded_input si ci ti year (defaults : gmap string value) :
  dom (encoded_input si ci ti year defaults) = UI_FIELDS ∪ dom defaults.
Proof.
  unfold encoded_input, UI_FIELDS.
  rewrite !dom_insert_L, dom_union_L, dom_singleton_L.
  apply set_eq. intros k. rewrite !elem_of_union, !elem_of_singleton. tauto.
Qed.

Lemma encoded_input_numeric si ci ti year (defaults : gmap string value) k v :
  map_Forall (λ _ v, numeric v = true) defaults →
  encoded_input si ci ti year defaults !! k = Some v → numeric v = true.
Proof.
  intros Hnum. unfold encoded_input.
  repeat (rewrite (lookup_insert _ _ k); case_decide; [by intros [= <-]|]).
  rewrite lookup_union_Some_raw. intros [Hd|[_ Hy]].
  - by eapply Hnum.
  - rewrite lookup_singleton in Hy. case_decide; [|done]. by injection Hy as <-.
Qed.

Lemma score_candidate_valid
    (m : LGBMModel) (encs : gmap string LabelEncoder)
    (defaults : gmap string value) (es ec et : LabelEncoder)
    (s c ct : string) (year : Z) :
  encs !! "state" = Some es → encs !! "category" = Some ec →
  encs !! "type" = Some et →
  s ∈ classes_ es → c ∈ classes_ ec → ct ∈ classes_ et →
  defaults !! "state" = None → defaults !! "category" = None →
  defaults !! "type" = None →
  Forall (λ n, n ∈ UI_FIELDS ∪ dom defaults) (feature_name_ m) →
  ∃ (si ci ti : nat) (row : list value),
    classes_ es !! si = Some s ∧ classes_ ec !! ci = Some c ∧
    classes_ et !! ti = Some ct ∧
    Forall2 (λ n v, encoded_input (Z.of_nat si) (Z.of_nat ci) (Z.of_nat ti)
                      year defaults !! n = Some v) (feature_name_ m) row ∧
    score_candidate (PModel m) (PEncoders encs) (PDefaults defaults)
      (VStr s) (VStr c) year ct
    = (pred ← predict m row; mret (ct, pred)) ∧
    (map_Forall (λ _ v, numeric v = true) defaults →
     Forall (λ v, numeric v = true) row).
Proof.
  intros Hes Hec Het Hs Hc Hct Hds Hdc Hdt Hnames.
  destruct (transform_known es s Hs) as (si & Hsi & Hsl & _).
  destruct (transform_known ec c Hc) as (ci & Hci & Hcl & _).
  destruct (transform_known et ct Hct) as (ti & Hti & Htl & _).
  destruct (align_Ok (encoded_input (Z.of_nat si) (Z.of_nat ci) (Z.of_nat ti)
                        year defaults) (feature_name_ m))
    as (row & Hrow & Hf); [by rewrite dom_encoded_input|].
  exists si, ci, ti, row. repeat (split; [done|]). split.
  - rewrite (score_candidate_eval m encs defaults es ec et (VStr s) (VStr c) ct
               year (Z.of_nat si) (Z.of_nat ci) (Z.of_nat ti)) by done.
    by rewrite Hrow.
  - intros Hnum. apply Forall_forall. intros v Hv.
    apply list_elem_of_lookup in Hv as [i Hi].
    destruct (Forall2_lookup_r _ _ _ _ _ Hf Hi) as (n & _ & Hn).
    by eapply encoded_input_numeric.
Qed.

(** X10: with valid artifacts nothing before the model can fail.  When the
    bank has the three encoders, the state, the category and the crime
    type are labels of their vocabularies, Defaults names none of these
    three columns and every feature the model declares is a UI field or a
    key of Defaults, the candidate's row is built, encoded and aligned
    without error: the model is called on the values of [encoded_input] at
    its declared features, in their order, and the candidate's outcome is
    the model's.  If the defaults are numbers, so is the whole row. *)
Theorem score_candidate_reaches_model
    (m : LGBMModel) (encs : gmap string LabelEncoder)
    (defaults : gmap string value) (es ec et : LabelEncoder)
    (s c ct : string) (year : Z) :
  encs !! "state" = Some es → encs !! "category" = Some ec →
  encs !! "type" = Some et →
  s ∈ classes_ es → c ∈ classes_ ec → ct ∈ classes_ et →
  defaults !! "state" = None → defaults !! "category" = None →
  defaults !! "type" = None →
  Forall (λ n, n ∈ UI_FIELDS ∪ dom defaults) (feature_name_ m) →
  ∃ (si ci ti : nat) (row : list value),
    classes_ es !! si = Some s ∧ classes_ ec !! ci = Some c ∧
    classes_ et !! ti = Some ct ∧
    Forall2 (λ n v, encoded_input (Z.of_nat si) (Z.of_nat ci) (Z.of_nat ti)
                      year defaults !! n = Some v) (feature_name_ m) row ∧
    score_candidate (PModel m) (PEncoders encs) (PDefaults defaults)
      (VStr s) (VStr c) year ct
    = (pred ← predict m row; mret (ct, pred)) ∧
    (map_Forall (λ _ v, numeric v = true) defaults →
     Forall (λ v, numeric v = true) row).
Proof. apply score_candidate_valid. Qed.

Lemma score_candidate_reaches_model_witness :
  ∃ (si ci ti : nat) (row : list value),
    ["Johor"; "Kedah"; "Selangor"] !! si = Some "Kedah" ∧
    ["assault"; "property"] !! ci = Some "assault" ∧
    ["T01"; "T02"; "T03"; "T04"; "T05"; "T06"; "T07"; "T08"; "T09"; "T10"] !! ti
    = Some "T03" ∧
    Forall2 (λ n v, encoded_input (Z.of_nat si) (Z.of_nat ci) (Z.of_nat ti)
                      2027 pop_defaults !! n = Some v)
      ["state"; "category"; "type"; "year"; "pop"] row ∧
    score_candidate (PModel demo_model) (PEncoders demo_encoders)
      (PDefaults pop_defaults) (VStr "Kedah") (VStr "assault") 2027 "T03"
    = (pred ← demo_predict row; mret ("T03", pred)) ∧
    (map_Forall (λ _ v, numeric v = true) pop_defaults →
     Forall (λ v, numeric v = true) row).
Proof.
  apply (score_candidate_reaches_model demo_model demo_encoders pop_defaults
           state_encoder
           category_encoder
           type_encoder).
  - vm_compute. reflexivity.
  - vm_compute. reflexivity.
  - vm_compute. reflexivity.
  - simpl. right. left.
  - simpl. left.
  - simpl. do 2 right. left.
  - vm_compute. reflexivity.
  - vm_compute. reflexivity.
  - vm_compute. reflexivity.
  - simpl. repeat constructor;
      (apply (bool_decide_unpack _); vm_compute; exact I).
Defined.

(** X11: a feature the model declares that is neither a UI field nor a key
    of Defaults (the schema has drifted) makes every candidate fail with
    [KeyError] on exactly the declared features that are missing, whatever
    the labels, as soon as the three columns encode. *)
Theorem score_candidate_schema_drift
    (m : LGBMModel) (encs : gmap string LabelEncoder)
    (defaults : gmap string value) (es ec et : LabelEncoder)
    (s c ct : string) (year : Z) (n : string) :
  encs !! "state" = Some es → encs !! "category" = Some ec →
  encs !! "type" = Some et →
  s ∈ classes_ es → c ∈ classes_ ec → ct ∈ classes_ et →
  defaults !! "state" = None → defaults !! "category" = None →
  defaults !! "type" = None →
  n ∈ feature_name_ m → n ∉ UI_FIELDS ∪ dom defaults →
  score_candidate (PModel m) (PEncoders encs) (PDefaults defaults)
    (VStr s) (VStr c) year ct
  = Raise (KeyError (filter (λ n, n ∉ UI_FIELDS ∪ dom defaults) (feature_name_ m))).
Proof.
  intros Hes Hec Het Hs Hc Hct Hds Hdc Hdt Hn Hmissing.
  destruct (transform_known es s Hs) as (si & Hsi & _).
  destruct (transform_known ec c Hc) as (ci & Hci & _).
  destruct (transform_known et ct Hct) as (ti & Hti & _).
  rewrite (score_candidate_eval m encs defaults es ec et (VStr s) (VStr c) ct
             year (Z.of_nat si) (Z.of_nat ci) (Z.of_nat ti)) by done.
  destruct (align_missing (encoded_input (Z.of_nat si) (Z.of_nat ci)
                             (Z.of_nat ti) year defaults) (feature_name_ m) n)
    as [-> _]; [done|by rewrite dom_encoded_input|].
  simpl. by rewrite dom_encoded_input.
Qed.

Lemma score_candidate_schema_drift_witness :
  score_candidate (PModel drifted_model) (PEncoders demo_encoders)
    (PDefaults pop_defaults) (VStr "Kedah") (VStr "assault") 2027 "T03"
  = Raise (KeyError (filter (λ n, n ∉ UI_FIELDS ∪ dom pop_defaults)
                       (feature_name_ drifted_model))).
Proof.
  apply (score_candidate_schema_drift drifted_model demo_encoders pop_defaults
           state_encoder
           category_encoder
           type_encoder
           "Kedah" "assault" "T03" 2027 "gdp").
  - vm_compute. reflexivity.
  - vm_compute. reflexivity.
  - vm_compute. reflexivity.
  - simpl. right. left.
  - simpl. left.
  - simpl. do 2 right. left.
  - vm_compute. reflexivity.
  - vm_compute. reflexivity.
  - vm_compute. reflexivity.
  - simpl. do 5 right. left.
  - apply (bool_decide_unpack _). vm_compute. exact I.
Defined.

(** X12: no error path with valid artifacts.  When the bank has the three
    encoders, the state and the category are labels of their vocabularies,
    Defaults holds numbers and names none of the three label columns,
    every feature the model declares is a UI field or a key of Defaults,
    and the model scores every numeric row of its width, pressing the
    button scores every crime type of the vocabulary (none can be an
    unknown label), shows min(5, number of crime types) ranking lines and
    exactly one alert. *)
Theorem predict_trends_succeeds
    (m : LGBMModel) (encs : gmap string LabelEncoder)
    (defaults : gmap string value) (es ec et : LabelEncoder)
    (s c : string) (year : Z) (w : world) :
  encs !! "state" = Some es → encs !! "category" = Some ec →
  encs !! "type" = Some et →
  s ∈ classes_ es → c ∈ classes_ ec →
  defaults !! "state" = None → defaults !! "category" = None →
  defaults !! "type" = None →
  map_Forall (λ _ v, numeric v = true) defaults →
  Forall (λ n, n ∈ UI_FIELDS ∪ dom defaults) (feature_name_ m) →
  (∀ row, length row = length (feature_name_ m) →
          Forall (λ v, numeric v = true) row → is_Ok (predict m row) = true) →
  ∃ results page,
    score_all (PModel m) (PEncoders encs) (PDefaults defaults)
      (VStr s) (VStr c) year (classes_ et) [] = Ok results ∧
    results.*1 = classes_ et ∧
    predict_trends (PModel m) (PEncoders encs) (PDefaults defaults)
      (VStr s) (VStr c) year w = (Ok (), add_ui page w) ∧
    length (rank_lines_of page) = 5 `min` length (classes_ et) ∧
    alerts page = [priority_tier (rank results)].
Proof.
  intros Hes Hec Het Hs Hc Hds Hdc Hdt Hnum Hnames Htotal.
  destruct (score_all_Ok (PModel m) (PEncoders encs) (PDefaults defaults)
              (VStr s) (VStr c) year (classes_ et) []) as (results & Hres & Hf).
  { apply Forall_forall. intros ct Hct.
    destruct (score_candidate_valid m encs defaults es ec et s c ct year)
      as (si & ci & ti & row & _ & _ & _ & Hrow & -> & Hrownum); try done.
    specialize (Htotal row). rewrite <-(Forall2_length _ _ _ Hrow) in Htotal.
    specialize (Htotal eq_refl (Hrownum Hnum)).
    by destruct (predict m row). }
  simpl in Hres. exists results.
  assert (results.*1 = classes_ et) as Hlabels.
  { clear Hres. induction Hf as [|ct r cts rs Hr _ IH]; [done|].
    rewrite fmap_cons. f_equal; [|done]. by eapply score_candidate_label. }
  assert (getitem (PEncoders encs) "type" = Ok et) as Hget
    by (simpl; unfold dict_get; by rewrite Het).
  rewrite (predict_trends_scored _ _ _ _ _ _ et results) by done.
  destruct (display_run results w) as [actions ->].
  eexists. split; [done|]. split; [done|]. split; [done|].
  rewrite rank_lines_of_display_page, rank_lines_length, rank_length.
  rewrite alerts_display_page. split; [|done].
  by rewrite <-Hlabels, length_fmap.
Qed.

Lemma predict_trends_succeeds_witness :
  ∃ results page,
    score_all (PModel lenient_model) (PEncoders demo_encoders)
      (PDefaults pop_defaults) (VStr "Kedah") (VStr "assault") 2027
      ["T01"; "T02"; "T03"; "T04"; "T05"; "T06"; "T07"; "T08"; "T09"; "T10"] []
    = Ok results ∧
    results.*1
    = ["T01"; "T02"; "T03"; "T04"; "T05"; "T06"; "T07"; "T08"; "T09"; "T10"] ∧
    predict_trends (PModel lenient_model) (PEncoders demo_encoders)
      (PDefaults pop_defaults) (VStr "Kedah") (VStr "assault") 2027
      (process_start demo_files)
    = (Ok (), add_ui page (process_start demo_files)) ∧
    length (rank_lines_of page) = 5 `min` 10 ∧
    alerts page = [priority_tier (rank results)].
Proof.
  apply (predict_trends_succeeds lenient_model demo_encoders pop_defaults
           state_encoder
           category_encoder
           type_encoder).
  - vm_compute. reflexivity.
  - vm_compute. reflexivity.
  - vm_compute. reflexivity.
  - simpl. right. left.
  - simpl. left.
  - vm_compute. reflexivity.
  - vm_compute. reflexivity.
  - vm_compute. reflexivity.
  - apply map_Forall_singleton. reflexivity.
  - simpl. repeat constructor;
      (apply (bool_decide_unpack _); vm_compute; exact I).
  - intros row _ _. unfold lenient_model, lenient_predict. simpl.
    destruct row as [|v1 [|v2 [|v3 [|v4 [|v5 [|v6 row]]]]]]; try reflexivity;
      destruct v3; reflexivity.
Defined.

(** ** More on the loaders *)

(** X13: a loader fails in two ways only, both with nothing cached for it
    before or after.  Either there is no file at its path: it shows its
    error box and stops the run, and [joblib.load] is not called.  Or the
    file at its path does not unpickle: [joblib.load] is called and
    raises, and no error box is shown.  In particular [joblib.load] is
    never called on a path with no file. *)
Theorem load_failure_modes
    (BASE_DIR : string) (k : kind) (w : world) (e : exn) :
  (load BASE_DIR k w).1 = Raise e →
  cache w !! fname_of k = None ∧
  cache (load BASE_DIR k w).2 = cache w ∧
  ((e = StopException ∧
    files w !! path_of BASE_DIR k = None ∧
    (load BASE_DIR k w).2 = shown (ErrorBox (missing_message BASE_DIR k)) w) ∨
   (e = UnpicklingError (path_of BASE_DIR k) ∧
    files w !! path_of BASE_DIR k = Some Unreadable ∧
    (load BASE_DIR k w).2 = tried (path_of BASE_DIR k) w)).
Proof.
  destruct (load_cases BASE_DIR k w)
    as [(o & _ & ->)|[(Hc & Hf & ->)|[(o & _ & _ & ->)|(Hc & Hf & ->)]]];
    simpl; try done.
  - intros [= <-]. split; [done|]. split; [done|]. by left.
  - intros [= <-]. split; [done|]. split; [done|]. by right.
Qed.

Lemma load_failure_modes_witness :
  cache (process_start unreadable_model_files) !! fname_of Model = None ∧
  cache (load "/app" Model (process_start unreadable_model_files)).2
  = cache (process_start unreadable_model_files) ∧
  ((UnpicklingError (path_of "/app" Model) = StopException ∧
    files (process_start unreadable_model_files) !! path_of "/app" Model = None ∧
    (load "/app" Model (process_start unreadable_model_files)).2
    = shown (ErrorBox (missing_message "/app" Model))
        (process_start unreadable_model_files)) ∨
   (UnpicklingError (path_of "/app" Model) = UnpicklingError (path_of "/app" Model) ∧
    files (process_start unreadable_model_files) !! path_of "/app" Model
    = Some Unreadable ∧
    (load "/app" Model (process_start unreadable_model_files)).2
    = tried (path_of "/app" Model) (process_start unreadable_model_files))).
Proof.
  apply (load_failure_modes "/app" Model (process_start unreadable_model_files)).
  vm_compute. reflexivity.
Defined.

(** X14: a failed load is not remembered: once the file is there, the next
    call of the loader, in the same process, deserializes it, returns it
    and caches it. *)
Theorem load_failure_is_not_cached
    (BASE_DIR : string) (k : kind) (w : world)
    (fs : gmap string file) (page : list ui_event) (o : pickle) :
  cache w !! fname_of k = None →
  files w !! path_of BASE_DIR k = None →
  fs !! path_of BASE_DIR k = Some (Pickled o) →
  let failed := (load BASE_DIR k w).2 in
  let retry :=
    load BASE_DIR k {| files := fs; cache := cache failed;
                       loads := loads failed; ui := page |} in
  retry.1 = Ok o ∧
  cache retry.2 !! fname_of k = Some o ∧
  loads retry.2 = loads w ++ [(path_of BASE_DIR k, true)].
Proof.
  intros Hc Hf Hfs failed retry. subst failed retry.
  rewrite (load_miss_absent BASE_DIR k w Hc Hf). simpl.
  rewrite (load_miss_present BASE_DIR k _ o) by done. simpl.
  by rewrite lookup_insert_eq.
Qed.

Lemma load_failure_is_not_cached_witness :
  let failed := (load "/app" Model (process_start ∅)).2 in
  let retry :=
    load "/app" Model {| files := demo_files; cache := cache failed;
                         loads := loads failed; ui := [] |} in
  retry.1 = Ok (PModel demo_model) ∧
  cache retry.2 !! fname_of Model = Some (PModel demo_model) ∧
  loads retry.2 = loads (process_start ∅) ++ [(path_of "/app" Model, true)].
Proof.
  apply (load_failure_is_not_cached "/app" Model (process_start ∅) demo_files []
           (PModel demo_model)); vm_compute; reflexivity.
Defined.

(** X15: whatever the installation directory, the three artifacts are read
    from three different files, each inside that directory. *)
Theorem artifact_paths_distinct (BASE_DIR : string) (k k' : kind) :
  k ≠ k' →
  path_of BASE_DIR k ≠ path_of BASE_DIR k' ∧
  ∃ name, path_of BASE_DIR k = BASE_DIR +:+ name.
Proof.
  intros Hne. split.
  - intros Heq. by apply path_of_inj in Heq.
  - destruct k; simpl; unfold MODEL_PATH, ENCODER_PATH, DEFAULT_PATH, os_path_join;
      destruct (ends_with_slash BASE_DIR); by eexists.
Qed.

Lemma artifact_paths_distinct_witness :
  path_of "/app" Model ≠ path_of "/app" Defaults ∧
  ∃ name, path_of "/app" Model = "/app" +:+ name.
Proof. apply artifact_paths_distinct. discriminate. Defined.

(** A loader whose artifact is available returns it and shows nothing;
    the files and the other loaders' cache entries are as before. *)
Lemma load_available_run BASE_DIR k w :
  available BASE_DIR k w →
  ∃ o w', load BASE_DIR k w = (Ok o, w') ∧
          ui w' = ui w ∧ files w' = files w ∧
          ∀ k', k' ≠ k → cache w' !! fname_of k' = cache w !! fname_of k'.
Proof.
  intros Hav.
  destruct (load_cases BASE_DIR k w)
    as [(o & _ & ->)|[(Hc & Hf & _)|[(o & _ & _ & ->)|(Hc & Hf & _)]]].
  - by exists o, w.
  - destruct Hav as [[? Hav]|[? Hav]]; congruence.
  - eexists _, _. split; [done|]. simpl. split; [done|]. split; [done|].
    intros k' Hne. apply lookup_insert_ne. intros Hfn. by apply fname_of_inj in Hfn.
  - destruct Hav as [[? Hav]|[? Hav]]; congruence.
Qed.

Lemma load_missing_run BASE_DIR k w :
  missing BASE_DIR k w →
  load BASE_DIR k w
  = (Raise StopException, shown (ErrorBox (missing_message BASE_DIR k)) w).
Proof. intros [Hc Hf]. by apply load_miss_absent. Qed.

Lemma available_after BASE_DIR k w w' :
  files w' = files w → cache w' !! fname_of k = cache w !! fname_of k →
  available BASE_DIR k w' ↔ available BASE_DIR k w.
Proof. intros Hf Hc. unfold available. by rewrite Hf, Hc. Qed.

Lemma missing_after BASE_DIR k w w' :
  files w' = files w → cache w' !! fname_of k = cache w !! fname_of k →
  missing BASE_DIR k w' ↔ missing BASE_DIR k w.
Proof. intros Hf Hc. unfold missing. by rewrite Hf, Hc. Qed.

(** ** The prediction page as a whole *)

Lemma bind_Ok {A B} (m : M A) (f : A → M B) w a w' :
  m w = (Ok a, w') → (m ≫= f) w = f a w'.
Proof. intros H. unfold mbind, M_bind. by rewrite H. Qed.

Lemma bind_Raise {A B} (m : M A) (f : A → M B) w e w' :
  m w = (Raise e, w') → (m ≫= f) w = (Raise e, w').
Proof. intros H. unfold mbind, M_bind. by rewrite H. Qed.

Lemma shown_add_ui e page w : shown e (add_ui page w) = add_ui (page ++ [e]) w.
Proof. unfold shown, add_ui. simpl. by rewrite <-app_assoc. Qed.

Lemma page_stops_at_model BASE_DIR inp w :
  missing BASE_DIR Model w →
  prediction_page BASE_DIR inp w
  = (Raise StopException,
     add_ui [Header "🔮 Crime Prediction";
             ErrorBox (missing_message BASE_DIR Model)] w).
Proof.
  intros Hnav. unfold prediction_page.
  rewrite (bind_Ok _ _ _ _ _ (emit_run _ w)).
  change (load_model BASE_DIR) with (load BASE_DIR Model).
  erewrite bind_Raise; [|by apply load_missing_run].
  by rewrite shown_add_ui.
Qed.

Lemma page_stops_at_encoders BASE_DIR inp w :
  available BASE_DIR Model w → missing BASE_DIR EncoderBank w →
  (prediction_page BASE_DIR inp w).1 = Raise StopException ∧
  ui (prediction_page BASE_DIR inp w).2
  = ui w ++ [Header "🔮 Crime Prediction";
             ErrorBox (missing_message BASE_DIR EncoderBank)].
Proof.
  intros Hm Hnav. unfold prediction_page.
  rewrite (bind_Ok _ _ _ _ _ (emit_run _ w)).
  destruct (load_available_run BASE_DIR Model (add_ui [Header "🔮 Crime Prediction"] w))
    as (model & w1 & Hrun & Hui & Hfiles & Hcache); [done|].
  change (load_model BASE_DIR) with (load BASE_DIR Model).
  rewrite (bind_Ok _ _ _ _ _ Hrun).
  change (load_encoders BASE_DIR) with (load BASE_DIR EncoderBank).
  erewrite bind_Raise; [|apply load_missing_run].
  - simpl. split; [done|]. rewrite Hui. simpl. by rewrite <-app_assoc.
  - by rewrite (missing_after BASE_DIR EncoderBank w w1 Hfiles (Hcache EncoderBank ltac:(discriminate))).
Qed.

Lemma page_stops_at_defaults BASE_DIR inp w :
  available BASE_DIR Model w → available BASE_DIR EncoderBank w →
  missing BASE_DIR Defaults w →
  (prediction_page BASE_DIR inp w).1 = Raise StopException ∧
  ui (prediction_page BASE_DIR inp w).2
  = ui w ++ [Header "🔮 Crime Prediction";
             ErrorBox (missing_message BASE_DIR Defaults)].
Proof.
  intros Hm He Hnav. unfold prediction_page.
  rewrite (bind_Ok _ _ _ _ _ (emit_run _ w)).
  destruct (load_available_run BASE_DIR Model (add_ui [Header "🔮 Crime Prediction"] w))
    as (model & w1 & Hrun & Hui & Hfiles & Hcache); [done|].
  change (load_model BASE_DIR) with (load BASE_DIR Model).
  rewrite (bind_Ok _ _ _ _ _ Hrun).
  destruct (load_available_run BASE_DIR EncoderBank w1)
    as (encoders & w2 & Hrun2 & Hui2 & Hfiles2 & Hcache2).
  { by rewrite (available_after BASE_DIR EncoderBank w w1 Hfiles (Hcache EncoderBank ltac:(discriminate))). }
  change (load_encoders BASE_DIR) with (load BASE_DIR EncoderBank).
  rewrite (bind_Ok _ _ _ _ _ Hrun2).
  change (load_defaults BASE_DIR) with (load BASE_DIR Defaults).
  erewrite bind_Raise; [|apply load_missing_run].
  - simpl. split; [done|]. rewrite Hui2, Hui. simpl. by rewrite <-app_assoc.
  - rewrite (missing_after BASE_DIR Defaults w1 w2 Hfiles2 (Hcache2 Defaults ltac:(discriminate))).
    by rewrite (missing_after BASE_DIR Defaults w w1 Hfiles (Hcache Defaults ltac:(discriminate))).
Qed.

(** X16: the page asks for the model, the encoders and the defaults in this
    order.  When one of them is missing (not cached, and no file at its
    path) while those asked for before it are available (cached, or on
    disk as a pickle), the run ends there by [st.stop()], and below the
    page header there is that loader's error box and nothing else: no
    select box, no slider, no button, whatever the user's inputs. *)
Theorem page_stops_at_first_missing_artifact
    (BASE_DIR : string) (inp : inputs) (w : world) (k : kind) :
  missing BASE_DIR k w →
  (∀ k', (kind_index k' < kind_index k)%nat → available BASE_DIR k' w) →
  (prediction_page BASE_DIR inp w).1 = Raise StopException ∧
  ui (prediction_page BASE_DIR inp w).2
  = ui w ++ [Header "🔮 Crime Prediction";
             ErrorBox (missing_message BASE_DIR k)].
Proof.
  intros Hnav Hbefore. destruct k.
  - by rewrite page_stops_at_model.
  - apply page_stops_at_encoders; [|done]. apply Hbefore. simpl. lia.
  - apply page_stops_at_defaults; [| |done]; apply Hbefore; simpl; lia.
Qed.

Lemma page_stops_at_first_missing_artifact_witness :
  (prediction_page "/app" demo_inputs (process_start model_only_files)).1
  = Raise StopException ∧
  ui (prediction_page "/app" demo_inputs (process_start model_only_files)).2
  = ui (process_start model_only_files)
    ++ [Header "🔮 Crime Prediction";
        ErrorBox (missing_message "/app" EncoderBank)].
Proof.
  apply (page_stops_at_first_missing_artifact "/app" demo_inputs
           (process_start model_only_files) EncoderBank).
  - split; vm_compute; reflexivity.
  - intros k' Hk'. destruct k'; simpl in Hk'; try lia.
    right. eexists. vm_compute. reflexivity.
Defined.

(** ** Rankings and alerts over whole page runs *)

Lemma silent_nil : silent [].
Proof. split; [done|constructor]. Qed.

Lemma silent_app page page' : silent page → silent page' → silent (page ++ page').
Proof.
  intros [Ha Hr] [Ha' Hr']. split.
  - by rewrite alerts_app, Ha, Ha'.
  - by apply Forall_app.
Qed.

Lemma silent_singleton e :
  alert_of_event e = None → is_ranking_event e = false → silent [e].
Proof.
  intros Ha Hr. split.
  - unfold alerts. simpl. by rewrite Ha.
  - by constructor.
Qed.

Lemma silent_rank_lines_of page : silent page → rank_lines_of page = [].
Proof.
  intros [_ Hr]. induction Hr as [|e page He _ IH]; [done|].
  rewrite rank_lines_of_cons, IH. by destruct e.
Qed.

Lemma page_outcome_prefix clicked {A} (r : res A) page page' :
  silent page → page_outcome clicked r page' → page_outcome clicked r (page ++ page').
Proof.
  intros Hs. destruct r as [a|e]; simpl; [|by apply silent_app].
  destruct clicked; [|by apply silent_app].
  intros (results & Ha & Hl). exists results.
  rewrite alerts_app, rank_lines_of_app, (silent_rank_lines_of page Hs).
  destruct Hs as [-> _]. done.
Qed.

Lemma quiet_ret {A} (a : A) : quiet (mret a : M A).
Proof. intros w. exists []. simpl. split; [by rewrite app_nil_r|apply silent_nil]. Qed.

Lemma quiet_lift {A} (r : res A) : quiet (lift r).
Proof. intros w. exists []. simpl. split; [by rewrite app_nil_r|apply silent_nil]. Qed.

Lemma quiet_emit e :
  alert_of_event e = None → is_ranking_event e = false → quiet (emit e).
Proof. intros Ha Hr w. exists [e]. split; [done|by apply silent_singleton]. Qed.

Lemma quiet_bind {A B} (m : M A) (f : A → M B) :
  quiet m → (∀ a, quiet (f a)) → quiet (m ≫= f).
Proof.
  intros Hm Hf w. unfold mbind, M_bind.
  destruct (Hm w) as (page & Hui & Hs). destruct (m w) as [[a|e] w1]; simpl in *.
  - destruct (Hf a w1) as (page' & Hui' & Hs').
    exists (page ++ page'). split; [|by apply silent_app].
    by rewrite Hui', Hui, app_assoc.
  - by exists page.
Qed.

Lemma quiet_selectbox label options choice : quiet (st_selectbox label options choice).
Proof.
  apply quiet_bind; [by apply quiet_emit|]. intros _. apply quiet_ret.
Qed.

Lemma quiet_load BASE_DIR k : quiet (load BASE_DIR k).
Proof.
  intros w.
  destruct (load_cases BASE_DIR k w)
    as [(o & _ & ->)|[(_ & _ & ->)|[(o & _ & _ & ->)|(_ & _ & ->)]]]; simpl.
  - exists []. split; [by rewrite app_nil_r|apply silent_nil].
  - eexists. split; [done|]. by apply silent_singleton.
  - exists []. split; [by rewrite app_nil_r|apply silent_nil].
  - exists []. split; [by rewrite app_nil_r|apply silent_nil].
Qed.

Lemma outcome_bind clicked {A B} (m : M A) (f : A → M B) :
  quiet m → (∀ a, run_outcome clicked (f a)) → run_outcome clicked (m ≫= f).
Proof.
  intros Hm Hf w. unfold mbind, M_bind.
  destruct (Hm w) as (page & Hui & Hs). destruct (m w) as [[a|e] w1]; simpl in *.
  - destruct (Hf a w1) as (page' & Hui' & Ho').
    exists (page ++ page'). split; [by rewrite Hui', Hui, app_assoc|].
    by apply page_outcome_prefix.
  - by exists page.
Qed.

Lemma outcome_predict_trends model encoders DEFAULTS state category year :
  run_outcome true (predict_trends model encoders DEFAULTS state category year).
Proof.
  intros w. unfold predict_trends, mbind, M_bind, lift.
  destruct (getitem encoders "type") as [enc|e].
  2: { exists []. simpl. split; [by rewrite app_nil_r|apply silent_nil]. }
  destruct (score_all model encoders DEFAULTS state category year (classes_ enc) [])
    as [results|e].
  2: { exists []. simpl. split; [by rewrite app_nil_r|apply silent_nil]. }
  destruct (display_run results w) as [actions ->].
  exists (display_page results ++ [Markdown actions]). split; [done|].
  exists results.
  by rewrite alerts_display_page, rank_lines_of_display_page.
Qed.

Lemma outcome_prediction_page BASE_DIR inp :
  run_outcome (predict_clicked inp) (prediction_page BASE_DIR inp).
Proof.
  unfold prediction_page.
  apply outcome_bind; [by apply quiet_emit|]. intros _.
  apply outcome_bind; [apply (quiet_load BASE_DIR Model)|]. intros model.
  apply outcome_bind; [apply (quiet_load BASE_DIR EncoderBank)|]. intros encoders.
  apply outcome_bind; [apply (quiet_load BASE_DIR Defaults)|]. intros DEFAULTS.
  apply outcome_bind; [by apply quiet_emit|]. intros _.
  apply outcome_bind; [apply quiet_lift|]. intros enc.
  apply outcome_bind; [apply quiet_selectbox|]. intros state.
  apply outcome_bind; [apply quiet_lift|]. intros enc'.
  apply outcome_bind; [apply quiet_selectbox|]. intros category.
  apply outcome_bind; [by apply quiet_emit|]. intros _.
  apply outcome_bind; [by apply quiet_emit|]. intros _.
  destruct (predict_clicked inp).
  - apply outcome_predict_trends.
  - intros w. exists []. simpl. split; [by rewrite app_nil_r|apply silent_nil].
Qed.

(** X17: a run of the prediction page that ends in an exception, whichever
    it is and wherever it is raised (a missing artifact, a pickle of the
    wrong kind, a missing encoder, an unseen label, a missing feature, the
    model itself), leaves no ranking line, no top-5 heading and no alert
    on the page. *)
Theorem failed_run_shows_no_ranking
    (BASE_DIR : string) (inp : inputs) (w : world) (e : exn) :
  (prediction_page BASE_DIR inp w).1 = Raise e →
  ∃ page,
    ui (prediction_page BASE_DIR inp w).2 = ui w ++ page ∧
    alerts page = [] ∧
    Forall (λ ev, is_ranking_event ev = false) page.
Proof.
  intros He. destruct (outcome_prediction_page BASE_DIR inp w) as (page & Hui & Ho).
  exists page. split; [done|]. rewrite He in Ho. exact Ho.
Qed.

Lemma failed_run_shows_no_ranking_witness :
  ∃ page,
    ui (prediction_page "/app" demo_inputs (process_start model_only_files)).2
    = ui (process_start model_only_files) ++ page ∧
    alerts page = [] ∧
    Forall (λ ev, is_ranking_event ev = false) page.
Proof.
  apply (failed_run_shows_no_ranking "/app" demo_inputs
           (process_start model_only_files) StopException).
  vm_compute. reflexivity.
Defined.

(** X18: a run of the prediction page that comes to its end shows a
    ranking and exactly one alert when the button is pressed (the alert
    chosen by priority over the top 5 of some list of results, whose lines
    are the ranking lines of the page), and neither ranking nor alert when
    it is not pressed. *)
Theorem finished_run_alert_iff_clicked
    (BASE_DIR : string) (inp : inputs) (w : world) :
  (prediction_page BASE_DIR inp w).1 = Ok () →
  ∃ page,
    ui (prediction_page BASE_DIR inp w).2 = ui w ++ page ∧
    if predict_clicked inp then
      ∃ results, alerts page = [priority_tier (rank results)] ∧
                 rank_lines_of page = rank_lines 1 (rank results)
    else alerts page = [] ∧ rank_lines_of page = [].
Proof.
  intros Hok. destruct (outcome_prediction_page BASE_DIR inp w) as (page & Hui & Ho).
  exists page. split; [done|]. rewrite Hok in Ho. simpl in Ho.
  destruct (predict_clicked inp); [done|].
  split; [apply Ho|by apply silent_rank_lines_of].
Qed.

Lemma finished_run_alert_iff_clicked_witness :
  ∃ page,
    ui (prediction_page "/app" demo_inputs (process_start demo_files)).2
    = ui (process_start demo_files) ++ page ∧
    ∃ results, alerts page = [priority_tier (rank results)] ∧
               rank_lines_of page = rank_lines 1 (rank results).
Proof.
  apply (finished_run_alert_iff_clicked "/app" demo_inputs (process_start demo_files)).
  vm_compute. reflexivity.
Defined.

(** ** Shadowed inputs, distinct rankings, incomplete encoder banks *)

Lemma build_year_shadowed state category crime_type year year'
    (defaults : gmap string value) :
  is_Some (defaults !! "year") →
  build state category crime_type year defaults
  = build state category crime_type year' defaults.
Proof.
  intros [v Hv]. rewrite !build_union. apply map_eq. intros k.
  rewrite !lookup_union. unfold base_input.
  destruct (decide (k = "year")) as [->|Hk].
  - rewrite Hv. by rewrite !(lookup_insert_ne _ _ "year"), !lookup_singleton_eq by done.
  - assert (∀ y : Z,
              ({[ "state" := state; "category" := category;
                  "type" := crime_type; "year" := VInt y ]}
                 : gmap string value) !! k
              = ({[ "state" := state; "category" := category;
                    "type" := crime_type ]} : gmap string value) !! k) as Hbase.
    { intros y.
      repeat (rewrite !(lookup_insert _ _ k); case_decide; [done|]).
      rewrite !(lookup_singleton _ k). by repeat case_decide. }
    by rewrite !Hbase.
Qed.

(** X19: when Defaults names the year, the slider has no effect: every
    candidate gets the same outcome for any two years the user picks. *)
Theorem year_in_defaults_disables_slider
    (model encoders : pickle) (defaults : gmap string value)
    (state category : value) (year year' : Z) (crime_type : string) :
  is_Some (defaults !! "year") →
  score_candidate model encoders (PDefaults defaults) state category year crime_type
  = score_candidate model encoders (PDefaults defaults) state category year' crime_type.
Proof.
  intros Hy. unfold score_candidate. simpl.
  by rewrite (build_year_shadowed _ _ _ year year').
Qed.

Lemma year_in_defaults_disables_slider_witness :
  score_candidate (PModel demo_model) (PEncoders demo_encoders)
    (PDefaults year_defaults) (VStr "Kedah") (VStr "assault") 2026 "T03"
  = score_candidate (PModel demo_model) (PEncoders demo_encoders)
      (PDefaults year_defaults) (VStr "Kedah") (VStr "assault") 2029 "T03".
Proof.
  apply year_in_defaults_disables_slider. eexists. vm_compute. reflexivity.
Defined.

Lemma rank_submseteq results : rank results ⊆+ results.
Proof. unfold rank. rewrite <-(sorted_desc_perm results) at 2. apply submseteq_take. Qed.

(** X20: when the vocabulary of crime types has no repetition, no crime
    type is listed twice in the top 5, and every crime type listed is one
    of the vocabulary. *)
Theorem top5_crime_types_distinct
    (model encoders DEFAULTS : pickle) (state category : value) (year : Z)
    (crime_types : list string) (results : list result) :
  NoDup crime_types →
  score_all model encoders DEFAULTS state category year crime_types [] = Ok results →
  NoDup (rank results).*1 ∧ (rank results).*1 ⊆ crime_types.
Proof.
  intros Hnd Hres.
  assert (results.*1 = crime_types) as Hlabels.
  { apply score_all_acc in Hres as (scored & -> & Hf). simpl.
    induction Hf as [|ct r cts rs Hr _ IH]; [done|].
    rewrite fmap_cons. apply NoDup_cons in Hnd as [_ Hnd].
    f_equal; [by eapply score_candidate_label|by apply IH]. }
  split.
  - apply (sublist_NoDup _ (sorted_desc results).*1).
    + by rewrite sorted_desc_perm, Hlabels.
    + unfold rank. rewrite fmap_take. apply sublist_take.
  - intros ct Hct. rewrite <-Hlabels.
    eapply elem_of_submseteq; [exact Hct|].
    apply fmap_submseteq, rank_submseteq.
Qed.

Lemma top5_crime_types_distinct_witness :
  NoDup (rank [("T01", 10%Q); ("T02", 10%Q); ("T03", 200%Q)]).*1 ∧
  (rank [("T01", 10%Q); ("T02", 10%Q); ("T03", 200%Q)]).*1 ⊆ ["T01"; "T02"; "T03"].
Proof.
  apply (top5_crime_types_distinct (PModel demo_model) (PEncoders demo_encoders)
           (PDefaults pop_defaults) (VStr "Kedah") (VStr "assault") 2027).
  - apply (bool_decide_unpack _). vm_compute. exact I.
  - vm_compute. reflexivity.
Defined.

(** A loader whose artifact is available returns that artifact. *)
Lemma load_available_artifact BASE_DIR k w :
  available BASE_DIR k w →
  ∃ o w', artifact BASE_DIR k w = Some o ∧
          load BASE_DIR k w = (Ok o, w') ∧
          ui w' = ui w ∧ files w' = files w ∧
          ∀ k', k' ≠ k → cache w' !! fname_of k' = cache w !! fname_of k'.
Proof.
  intros Hav. unfold artifact.
  destruct (load_cases BASE_DIR k w)
    as [(o & Hc & ->)|[(Hc & Hf & _)|[(o & Hc & Hf & ->)|(Hc & Hf & _)]]].
  - exists o, w. by rewrite Hc.
  - destruct Hav as [[? Hav]|[? Hav]]; congruence.
  - eexists o, _. rewrite Hc, Hf. split; [done|]. split; [done|]. simpl.
    split; [done|]. split; [done|].
    intros k' Hne. apply lookup_insert_ne. intros Hfn. by apply fname_of_inj in Hfn.
  - destruct Hav as [[? Hav]|[? Hav]]; congruence.
Qed.

Lemma artifact_after BASE_DIR k w w' :
  files w' = files w → cache w' !! fname_of k = cache w !! fname_of k →
  artifact BASE_DIR k w' = artifact BASE_DIR k w.
Proof. intros Hf Hc. unfold artifact. by rewrite Hf, Hc. Qed.

(** X21: with the three artifacts available but no encoder for the state in
    the bank, the page raises [KeyError] on "state" right after its
    introduction: no select box, no slider and no button is shown,
    whatever the user's inputs. *)
Theorem page_needs_state_encoder
    (BASE_DIR : string) (inp : inputs) (w : world)
    (encs : gmap string LabelEncoder) :
  available BASE_DIR Model w →
  artifact BASE_DIR EncoderBank w = Some (PEncoders encs) →
  available BASE_DIR Defaults w →
  encs !! "state" = None →
  (prediction_page BASE_DIR inp w).1 = Raise (KeyError ["state"]) ∧
  ui (prediction_page BASE_DIR inp w).2
  = ui w ++ [Header "🔮 Crime Prediction";
             Markdown "Select a **state**, **crime category**, and **target year**. The system will display the **top 5 predicted crime types**."].
Proof.
  intros Hm Henc Hd Hstate. unfold prediction_page.
  rewrite (bind_Ok _ _ _ _ _ (emit_run _ w)).
  destruct (load_available_artifact BASE_DIR Model
              (add_ui [Header "🔮 Crime Prediction"] w))
    as (model & w1 & _ & Hrun & Hui & Hfiles & Hcache); [done|].
  change (load_model BASE_DIR) with (load BASE_DIR Model).
  rewrite (bind_Ok _ _ _ _ _ Hrun).
  destruct (load_available_artifact BASE_DIR EncoderBank w1)
    as (encoders & w2 & Hart & Hrun2 & Hui2 & Hfiles2 & Hcache2).
  { rewrite (available_after BASE_DIR EncoderBank w w1 Hfiles
               (Hcache EncoderBank ltac:(discriminate))).
    unfold available. unfold artifact in Henc.
    destruct (cache w !! fname_of EncoderBank); [left; by eexists|right].
    destruct (files w !! path_of BASE_DIR EncoderBank) as [[o|]|]; [|done..].
    by exists o. }
  rewrite (artifact_after BASE_DIR EncoderBank w w1 Hfiles
             (Hcache EncoderBank ltac:(discriminate))), Henc in Hart.
  injection Hart as <-.
  change (load_encoders BASE_DIR) with (load BASE_DIR EncoderBank).
  rewrite (bind_Ok _ _ _ _ _ Hrun2).
  destruct (load_available_artifact BASE_DIR Defaults w2)
    as (DEFAULTS & w3 & _ & Hrun3 & Hui3 & _ & _).
  { rewrite (available_after BASE_DIR Defaults w1 w2 Hfiles2
               (Hcache2 Defaults ltac:(discriminate))).
    by rewrite (available_after BASE_DIR Defaults w w1 Hfiles
                  (Hcache Defaults ltac:(discriminate))). }
  change (load_defaults BASE_DIR) with (load BASE_DIR Defaults).
  rewrite (bind_Ok _ _ _ _ _ Hrun3).
  rewrite (bind_Ok _ _ _ _ _ (emit_run _ w3)).
  erewrite bind_Raise.
  2: { unfold lift. simpl. unfold dict_get. by rewrite Hstate. }
  simpl. split; [done|]. rewrite Hui3, Hui2, Hui. simpl. by rewrite <-app_assoc.
Qed.

Lemma page_needs_state_encoder_witness :
  (prediction_page "/app" demo_inputs (process_start stateless_files)).1
  = Raise (KeyError ["state"]) ∧
  ui (prediction_page "/app" demo_inputs (process_start stateless_files)).2
  = ui (process_start stateless_files)
    ++ [Header "🔮 Crime Prediction";
        Markdown "Select a **state**, **crime category**, and **target year**. The system will display the **top 5 predicted crime types**."].
Proof.
  apply (page_needs_state_encoder "/app" demo_inputs
           (process_start stateless_files) stateless_encoders).
  - right. eexists. vm_compute. reflexivity.
  - vm_compute. reflexivity.
  - right. eexists. vm_compute. reflexivity.
  - vm_compute. reflexivity.
Defined.
